(** * i.magiccap: the upload / retrieve data path of [main.py]

    A shallow embedding of the two request handlers of the gateway
    ([upload] and [image_view]) and of the streaming callable
    [SanicS3Stream], together with the collaborators they talk to: the
    process environment, the RethinkDB connection, the S3 client and the
    [random] module.  Handlers are written in a state-and-exception monad
    over the record [World] that holds those collaborators; a Python
    exception is a value of [Exception], and [try ... except C] is
    [try_except] with a handler that is defined on the class [C] only.

    Conventions.
    - Python [str] values are modelled as [string], the text in UTF-8.
      The handlers cut text at ASCII characters only (a space, a dot),
      which comes to the same on the encoded text; [str.lower] is the
      parameter [lower] of the model.
    - Python [bytes] values are [list byte].
    - A [dict] with string keys is a [gmap string _]; the request headers
      are a case-insensitive multi-dict, modelled as an association list. *)

From Stdlib Require Import Ascii String List NArith Lia.
From stdpp Require Import base option list strings gmap.

Import ListNotations.
Local Open Scope string_scope.
Local Open Scope list_scope.

(** ** Python values *)

Definition bytes : Type := list Byte.byte.

(** The exception classes that the handlers can meet.  [ClientError] is
    [botocore.exceptions.ClientError], carrying the service's error code
    (["NoSuchKey"], ["AccessDenied"], ["SlowDown"], ...); [BotoCoreError]
    stands for the botocore failures that are not client errors
    ([EndpointConnectionError], [NoCredentialsError], ...), and
    [ReqlDriverError] for a failure of the RethinkDB driver. *)
Inductive Exception : Type :=
| KeyError (key : string)
| IndexError
| ClientError (code : string)
| BotoCoreError (name : string)
| ReqlDriverError (msg : string).

Inductive Outcome (A : Type) : Type :=
| Returned (a : A)
| Raised (e : Exception).
Arguments Returned {A} a.
Arguments Raised {A} e.

(** ** String operations used by the handlers *)

(** Lower-casing of ASCII text: ['A'] to ['Z'] become ['a'] to ['z'], every
    other character stays. *)
Definition ascii_lower_char (c : ascii) : ascii :=
  let n := N_of_ascii c in
  if ((65 <=? n) && (n <=? 90))%N then ascii_of_N (n + 32) else c.

Fixpoint ascii_lower (s : string) : string :=
  match s with
  | EmptyString => EmptyString
  | String c r => String (ascii_lower_char c) (ascii_lower r)
  end.

(** Text made of ASCII characters only. *)
Fixpoint is_ascii (s : string) : bool :=
  match s with
  | EmptyString => true
  | String c r => (N_of_ascii c <? 128)%N && is_ascii r
  end.

(** [str.lower()].  Python lower-cases by the case tables of Unicode,
    which are no part of the repository: [lower] is a parameter of the
    model.  What is known of it is how it acts on ASCII text. *)
Class StrLower : Type := {
  lower : string -> string;
  lower_ascii : forall s, is_ascii s = true -> lower s = ascii_lower s
}.

(** The lower-casing that the examples run with: their text is ASCII,
    where this is what [str.lower] does. *)
#[global] Instance ascii_StrLower : StrLower :=
  {| lower := ascii_lower; lower_ascii := fun s _ => eq_refl |}.

(** [s.split(sep)] for a one-character separator: the pieces between the
    occurrences of [sep], empty pieces included. *)
Fixpoint split (sep : ascii) (s : string) : list string :=
  match s with
  | EmptyString => [EmptyString]
  | String c r =>
      if Ascii.eqb c sep then EmptyString :: split sep r
      else match split sep r with
           | t :: ts => String c t :: ts
           | [] => [String c EmptyString]
           end
  end.

(** [l.pop()]: the last element; [IndexError] on an empty list. *)
Fixpoint pop {A : Type} (l : list A) : Outcome A :=
  match l with
  | [] => Raised IndexError
  | [x] => Returned x
  | _ :: r => pop r
  end.

(** [len(l)] *)
Definition len {A : Type} (l : list A) : nat := length l.

(** ["".join(l)] *)
Fixpoint join (l : list string) : string :=
  match l with
  | [] => EmptyString
  | s :: r => s +:+ join r
  end.

(** [string.ascii_lowercase] *)
Definition ascii_lowercase : string := "abcdefghijklmnopqrstuvwxyz".

(** ** Collaborators *)

(** A document of the [installs] table.  A stored document always has its
    primary key, so it is never an empty (falsy) dict. *)
Record Installation : Type := {
  install_id : string;
  metadata : list (string * string)
}.

(** [app.conn]: the RethinkDB connection, seen through the one query the
    handlers run.  [conn_fault] is the error the driver raises when the
    connection is lost. *)
Record RethinkConn : Type := {
  installs : gmap string Installation;
  conn_fault : option Exception
}.

(** An object held by the storage backend. *)
Record StoredObject : Type := {
  obj_bucket : string;
  obj_key : string;
  obj_body : bytes;
  obj_content_type : string
}.

(** [app.client]: the S3 client together with the backend behind it.  The
    backend is an external service; it is modelled after its interface
    ([put_object] writes one object, [get_object] reads the object last
    written under a bucket and key or reports [NoSuchKey]).  [objects] is
    the log of completed writes, most recent first.  [put_fault] and
    [get_fault] are the errors the backend answers with, per bucket and
    key; [chunking] gives the sizes (and end-of-HTTP-chunk flags) in which
    a read stream delivers its bytes. *)
Record S3Client : Type := {
  objects : list StoredObject;
  put_fault : string -> string -> option Exception;
  get_fault : string -> string -> option Exception;
  chunking : list (nat * bool)
}.

(** The generator behind the [random] module: an unbounded supply of raw
    draws and the position of the next one. *)
Record Random : Type := {
  draws : nat -> nat;
  cursor : nat
}.

Record World : Type := {
  environ : gmap string string;
  conn : RethinkConn;
  client : S3Client;
  rng : Random
}.

(** ** The monad of handlers *)

Definition M (A : Type) : Type := World -> Outcome A * World.

Definition ret {A : Type} (a : A) : M A := fun w => (Returned a, w).

Definition raise {A : Type} (e : Exception) : M A := fun w => (Raised e, w).

Definition bind {A B : Type} (m : M A) (k : A -> M B) : M B :=
  fun w =>
    match m w with
    | (Returned a, w') => k a w'
    | (Raised e, w') => (Raised e, w')
    end.

Definition lift {A : Type} (o : Outcome A) : M A := fun w => (o, w).

(** [try: m  except C: h]: [handler e] is [Some h] exactly when [e] is an
    instance of [C]. *)
Definition try_except {A : Type} (m : M A)
    (handler : Exception -> option (M A)) : M A :=
  fun w =>
    match m w with
    | (Returned a, w') => (Returned a, w')
    | (Raised e, w') =>
        match handler e with
        | Some h => h w'
        | None => (Raised e, w')
        end
    end.

Notation "x <- m ; k" := (bind m (fun x => k))
  (at level 20, m at level 100, k at level 200, only parsing).

Definition except_KeyError {A : Type} (h : M A) (e : Exception) : option (M A) :=
  match e with
  | KeyError _ => Some h
  | _ => None
  end.

Definition except_ClientError {A : Type} (h : M A) (e : Exception) : option (M A) :=
  match e with
  | ClientError _ => Some h
  | _ => None
  end.

(** ** Requests and responses *)

(** [sanic.request.File]: one file part of a multipart body. *)
Record File : Type := {
  type : string;
  body : bytes;
  name : string
}.

Record Request : Type := {
  headers : list (string * string);
  files : gmap string (list File)
}.

(** [req.headers[k]]: the first value stored under [k], header names being
    compared without regard to case; [KeyError] when there is none. *)
Fixpoint headers_getitem `{StrLower} (h : list (string * string)) (k : string)
    : Outcome string :=
  match h with
  | [] => Raised (KeyError k)
  | (n, v) :: r =>
      if String.eqb (lower n) (lower k) then Returned v else headers_getitem r k
  end.

(** [d[k]] on a [dict] *)
Definition dict_getitem {V : Type} (d : gmap string V) (k : string) : Outcome V :=
  match d !! k with
  | Some v => Returned v
  | None => Raised (KeyError k)
  end.

(** [l[i]] on a [list] *)
Definition list_getitem {A : Type} (l : list A) (i : nat) : Outcome A :=
  match l !! i with
  | Some x => Returned x
  | None => Raised IndexError
  end.

(** The body of an S3 read: the chunks that [iter_chunks()] yields, each a
    pair of the data and the end-of-HTTP-chunk flag, and the error that
    ends the iteration early, if any. *)
Record StreamingBody : Type := {
  chunks : list (bytes * bool);
  stream_error : option Exception
}.

(** The dict that [get_object] answers with. *)
Record GetObjectOutput : Type := {
  ContentType : string;
  Body : StreamingBody
}.

Record SanicS3Stream : Type := {
  s3_response : GetObjectOutput
}.

Inductive ResponseBody : Type :=
| JsonBody (d : list (string * string))
| TextBody (s : string).

Inductive Response : Type :=
| HTTPResponse (b : ResponseBody) (status : nat) (content_type : string)
| StreamingHTTPResponse (streaming_fn : SanicS3Stream) (status : nat)
    (content_type : string).

(** [response.json(d, status=...)] *)
Definition response_json (d : list (string * string)) (status : nat) : Response :=
  HTTPResponse (JsonBody d) status "application/json".

(** [response.text(s, status=...)] *)
Definition response_text (s : string) (status : nat) : Response :=
  HTTPResponse (TextBody s) status "text/plain; charset=utf-8".

(** [response.stream(fn, content_type=...)] *)
Definition response_stream (fn : SanicS3Stream) (content_type : string) : Response :=
  StreamingHTTPResponse fn 200 content_type.

Definition status_of (r : Response) : nat :=
  match r with
  | HTTPResponse _ s _ => s
  | StreamingHTTPResponse _ s _ => s
  end.

(** ** Operations of the collaborators *)

(** [os.environ[k]] *)
Definition os_environ (k : string) : M string :=
  fun w => (dict_getitem (environ w) k, w).

(** [await r.table("installs").get(k).run(app.conn)]: the document, or
    [None] when the table has no document with that primary key. *)
Definition installs_get (k : string) : M (option Installation) :=
  fun w =>
    match conn_fault (conn w) with
    | Some e => (Raised e, w)
    | None => (Returned (installs (conn w) !! k), w)
    end.

(** [random._randbelow(n)] *)
Definition randbelow (n : nat) : M nat :=
  fun w =>
    let g := rng w in
    (Returned (draws g (cursor g) mod n),
     {| environ := environ w; conn := conn w; client := client w;
        rng := {| draws := draws g; cursor := S (cursor g) |} |}).

(** [random.choice(seq)] on a string: [seq[_randbelow(len(seq))]], and
    [IndexError] on an empty sequence. *)
Definition choice (seq : string) : M string :=
  match String.length seq with
  | 0 => raise IndexError
  | S _ =>
      i <- randbelow (String.length seq);
      match String.get i seq with
      | Some c => ret (String c EmptyString)
      | None => raise IndexError
      end
  end.

(** [[m for i in range(n)]] *)
Fixpoint list_comp {A : Type} (n : nat) (m : M A) : M (list A) :=
  match n with
  | 0 => ret []
  | S n' => x <- m; xs <- list_comp n' m; ret (x :: xs)
  end.

(** [await app.client.put_object(Bucket=, Key=, Body=, ContentType=)] *)
Definition put_object (bucket key : string) (data : bytes) (content_type : string)
    : M unit :=
  fun w =>
    let c := client w in
    match put_fault c bucket key with
    | Some e => (Raised e, w)
    | None =>
        (Returned tt,
         {| environ := environ w; conn := conn w; rng := rng w;
            client :=
              {| objects :=
                   {| obj_bucket := bucket; obj_key := key; obj_body := data;
                      obj_content_type := content_type |} :: objects c;
                 put_fault := put_fault c; get_fault := get_fault c;
                 chunking := chunking c |} |})
    end.

(** The chunks in which a read delivers [data], given the sizes the
    network hands them over in; what is left when the sizes run out comes
    as one last chunk. *)
Fixpoint split_chunks (sizes : list (nat * bool)) (data : bytes) : list (bytes * bool) :=
  match data with
  | [] => []
  | _ :: _ =>
      match sizes with
      | [] => [(data, false)]
      | (n, eoc) :: r => (take n data, eoc) :: split_chunks r (drop n data)
      end
  end.

Definition same_object (bucket key : string) (o : StoredObject) : bool :=
  String.eqb (obj_bucket o) bucket && String.eqb (obj_key o) key.

(** [await app.client.get_object(Bucket=, Key=)] *)
Definition get_object (bucket key : string) : M GetObjectOutput :=
  fun w =>
    let c := client w in
    match get_fault c bucket key with
    | Some e => (Raised e, w)
    | None =>
        match List.find (same_object bucket key) (objects c) with
        | None => (Raised (ClientError "NoSuchKey"), w)
        | Some o =>
            (Returned
               {| ContentType := obj_content_type o;
                  Body := {| chunks := split_chunks (chunking c) (obj_body o);
                             stream_error := None |} |}, w)
        end
    end.

(** ** The handlers *)

(** The public base of every returned URL. *)
Definition public_base : string := "https://i.magiccap.me/".

(** A [try] block of [upload] either binds a value and falls through, or
    its [except] clause returns a response at once. *)
Definition fall_through {A : Type} (m : M A) : M (Response + A) :=
  x <- m; ret (inr x).

Definition return_early {A : Type} (r : Response) : M (Response + A) :=
  ret (inl r).

(** [filename = "".join([random.choice(string.ascii_lowercase) for i in range(8)])] *)
Definition random_filename : M string :=
  cs <- list_comp 8 (choice ascii_lowercase); ret (join cs).

(** [ext = file_.name.split(".").pop().lower()] *)
Definition file_ext `{StrLower} (file_name : string) : Outcome string :=
  match pop (split "." file_name) with
  | Returned e => Returned (lower e)
  | Raised e => Raised e
  end.

(** [@app.route("/upload", methods=["POST"])] *)
Definition upload `{StrLower} (req : Request) : M Response :=
  a <- try_except
         (fall_through (lift (headers_getitem (headers req) "Authorization")))
         (except_KeyError
            (return_early
               (response_json [("error", "No authorization header present.")] 400)));
  match a with
  | inl early => ret early
  | inr auth_header =>
      let auth_header_split := split " " auth_header in
      if negb (Nat.eqb (len auth_header_split) 2) then
        ret (response_json [("error", "Invalid authorization header present.")] 400)
      else
        install_key <- lift (list_getitem auth_header_split 1);
        install <- installs_get install_key;
        match install with
        | None => ret (response_json [("error", "Invalid installation ID.")] 400)
        | Some _ =>
            f <- try_except
                   (fall_through
                      (parts <- lift (dict_getitem (files req) "data");
                       lift (list_getitem parts 0)))
                   (except_KeyError
                      (return_early
                         (response_json [("error", "No data found.")] 400)));
            match f with
            | inl early => ret early
            | inr file_ =>
                filename <- random_filename;
                ext <- lift (file_ext (name file_));
                bucket <- os_environ "AWS_BUCKET";
                _ <- put_object bucket (filename +:+ "." +:+ ext)
                       (body file_) (type file_);
                ret (response_json
                       [("url", public_base +:+ filename +:+ "." +:+ ext)] 200)
            end
        end
  end.

(** [SanicS3Stream.__call__]: every chunk that the S3 body yields is
    written to the response, data part only, as it comes; an error of the
    body ends the loop after the chunks that came before it.  [written]
    is what [response.write] has sent so far, oldest first.  Leaving the
    [async with] block closes the body on every path; the handle is not
    part of the model. *)
Definition SanicS3Stream_call (self : SanicS3Stream) (written : list bytes)
    : Outcome unit * list bytes :=
  let stream := Body (s3_response self) in
  let written' :=
    fold_left (fun acc chunk => acc ++ [fst chunk]) (chunks stream) written in
  match stream_error stream with
  | Some e => (Raised e, written')
  | None => (Returned tt, written')
  end.

(** [@app.route("/<item>")].  The session that the handler creates first
    is never used and is left out. *)
Definition image_view (item : string) : M Response :=
  try_except
    (bucket <- os_environ "AWS_BUCKET";
     get_res <- get_object bucket item;
     ret (response_stream {| s3_response := get_res |} (ContentType get_res)))
    (except_ClientError (ret (response_text "Not found." 404))).

(** [@app.exception(NotFound)] *)
Definition ignore_404s : Response := response_text "Not found." 404.

(** What the client takes as the body, given the writes of a streaming
    response.  The server sends every [response.write(data)] as one chunk
    of a chunked body, and a chunk of length zero is the mark that ends
    such a body: the client's body is what was written before the first
    empty write. *)
Fixpoint received (written : list bytes) : bytes :=
  match written with
  | [] => []
  | [] :: _ => []
  | data :: rest => data ++ received rest
  end.

(** What the server does with a streaming response: it runs the streaming
    function against a fresh writer, and the client takes its body from
    what is written. *)
Definition stream_to_client (fn : SanicS3Stream) : Outcome bytes :=
  match SanicS3Stream_call fn [] with
  | (Returned _, written) => Returned (received written)
  | (Raised e, _) => Raised e
  end.

(** ** Predicates on strings *)

(** The number of occurrences of a character in a string. *)
Fixpoint occurrences (c : ascii) (s : string) : nat :=
  match s with
  | EmptyString => 0
  | String d r => (if Ascii.eqb d c then 1 else 0) + occurrences c r
  end.

(** A lowercase ASCII letter, ['a'] to ['z']. *)
Definition is_lowercase_letter (c : ascii) : bool :=
  ((97 <=? N_of_ascii c) && (N_of_ascii c <=? 122))%N.

Fixpoint all_lowercase_letters (s : string) : bool :=
  match s with
  | EmptyString => true
  | String c r => is_lowercase_letter c && all_lowercase_letters r
  end.

(** ** Worlds reached by the handlers *)

(** The world after [n] draws of the generator. *)
Definition advance_rng (n : nat) (w : World) : World :=
  {| environ := environ w; conn := conn w; client := client w;
     rng := {| draws := draws (rng w); cursor := n + cursor (rng w) |} |}.

(** The world after one more object has been written. *)
Definition store_object (o : StoredObject) (w : World) : World :=
  {| environ := environ w; conn := conn w; rng := rng w;
     client :=
       {| objects := o :: objects (client w);
          put_fault := put_fault (client w);
          get_fault := get_fault (client w);
          chunking := chunking (client w) |} |}.

(** ** The runs of [upload] *)

(** [response.json({"error": msg}, status=400)] *)
Definition error_response (msg : string) : Response :=
  response_json [("error", msg)] 400.

(** [response.json({"url": f"https://i.magiccap.me/{key}"})] *)
Definition url_response (key : string) : Response :=
  response_json [("url", public_base +:+ key)] 200.

(** The request passes the three authorization checks: the header is
    there, it splits in two at spaces, and the registry has a document
    under its second piece. *)
Definition authorized `{StrLower} (req : Request) (w : World) : Prop :=
  exists h scheme cred inst,
    headers_getitem (headers req) "Authorization" = Returned h
    /\ split " " h = [scheme; cred]
    /\ conn_fault (conn w) = None
    /\ installs (conn w) !! cred = Some inst.

(** Every way a call of [upload] can go, with its outcome and the world
    it leaves behind. *)
Inductive upload_run `{StrLower} (req : Request) (w : World)
    : Outcome Response -> World -> Prop :=
| run_no_header :
    headers_getitem (headers req) "Authorization" = Raised (KeyError "Authorization") ->
    upload_run req w (Returned (error_response "No authorization header present.")) w
| run_malformed h :
    headers_getitem (headers req) "Authorization" = Returned h ->
    len (split " " h) <> 2 ->
    upload_run req w (Returned (error_response "Invalid authorization header present.")) w
| run_registry_down h scheme cred e :
    headers_getitem (headers req) "Authorization" = Returned h ->
    split " " h = [scheme; cred] ->
    conn_fault (conn w) = Some e ->
    upload_run req w (Raised e) w
| run_unknown h scheme cred :
    headers_getitem (headers req) "Authorization" = Returned h ->
    split " " h = [scheme; cred] ->
    conn_fault (conn w) = None ->
    installs (conn w) !! cred = None ->
    upload_run req w (Returned (error_response "Invalid installation ID.")) w
| run_no_data :
    authorized req w ->
    files req !! "data" = None ->
    upload_run req w (Returned (error_response "No data found.")) w
| run_empty_data :
    authorized req w ->
    files req !! "data" = Some [] ->
    upload_run req w (Raised IndexError) w
| run_no_bucket file_ rest :
    authorized req w ->
    files req !! "data" = Some (file_ :: rest) ->
    environ w !! "AWS_BUCKET" = None ->
    upload_run req w (Raised (KeyError "AWS_BUCKET")) (advance_rng 8 w)
| run_put_failed file_ rest prefix e bucket err :
    authorized req w ->
    files req !! "data" = Some (file_ :: rest) ->
    random_filename w = (Returned prefix, advance_rng 8 w) ->
    pop (split "." (name file_)) = Returned e ->
    environ w !! "AWS_BUCKET" = Some bucket ->
    put_fault (client w) bucket (prefix +:+ "." +:+ lower e) = Some err ->
    upload_run req w (Raised err) (advance_rng 8 w)
| run_ok file_ rest prefix e bucket :
    authorized req w ->
    files req !! "data" = Some (file_ :: rest) ->
    random_filename w = (Returned prefix, advance_rng 8 w) ->
    String.length prefix = 8 ->
    all_lowercase_letters prefix = true ->
    pop (split "." (name file_)) = Returned e ->
    environ w !! "AWS_BUCKET" = Some bucket ->
    put_fault (client w) bucket (prefix +:+ "." +:+ lower e) = None ->
    upload_run req w
      (Returned (url_response (prefix +:+ "." +:+ lower e)))
      (store_object
         {| obj_bucket := bucket; obj_key := prefix +:+ "." +:+ lower e;
            obj_body := body file_; obj_content_type := type file_ |}
         (advance_rng 8 w)).

(** ** A concrete deployment, used to run the handlers *)

Module Example.

Definition installation : Installation :=
  {| install_id := "abc123"; metadata := [("platform", "linux")] |}.

Definition s3 : S3Client :=
  {| objects := [];
     put_fault := fun _ _ => None;
     get_fault := fun _ _ => None;
     chunking := [(2, false); (0, true)] |}.

Definition world : World :=
  {| environ := {["AWS_BUCKET" := "magiccap"]};
     conn := {| installs := {["abc123" := installation]}; conn_fault := None |};
     client := s3;
     rng := {| draws := fun n => 3 * n; cursor := 0 |} |}.

(** The same deployment, with a backend that denies every read. *)
Definition world_denied : World :=
  {| environ := environ world; conn := conn world; rng := rng world;
     client :=
       {| objects := [];
          put_fault := fun _ _ => None;
          get_fault := fun _ _ => Some (ClientError "AccessDenied");
          chunking := [] |} |}.

(** The same deployment, with a backend that cannot be reached. *)
Definition world_unreachable : World :=
  {| environ := environ world; conn := conn world; rng := rng world;
     client :=
       {| objects := [];
          put_fault := fun _ _ => None;
          get_fault := fun _ _ => Some (BotoCoreError "EndpointConnectionError");
          chunking := [] |} |}.

Definition photo (file_name : string) : File :=
  {| type := "image/png";
     body := [Byte.x89; Byte.x50; Byte.x4e];
     name := file_name |}.

Definition request (auth_header : string) (parts : list File) : Request :=
  {| headers := [("authorization", auth_header)];
     files := {["data" := parts]} |}.

(** The same deployment, with the registry connection lost. *)
Definition world_registry_down : World :=
  {| environ := environ world; client := client world; rng := rng world;
     conn := {| installs := installs (conn world);
                conn_fault := Some (ReqlDriverError "Connection is closed.") |} |}.

(** The same deployment, without [AWS_BUCKET] in the environment. *)
Definition world_no_bucket : World :=
  {| environ := ∅; conn := conn world; client := client world; rng := rng world |}.

(** The same deployment, with a backend that refuses every write. *)
Definition world_read_only : World :=
  {| environ := environ world; conn := conn world; rng := rng world;
     client :=
       {| objects := [];
          put_fault := fun _ _ => Some (ClientError "AccessDenied");
          get_fault := fun _ _ => None;
          chunking := [] |} |}.

(** The same deployment, after the same key has been written twice. *)
Definition world_two_versions : World :=
  {| environ := environ world; conn := conn world; rng := rng world;
     client :=
       {| objects :=
            [ {| obj_bucket := "magiccap"; obj_key := "adgjmpsv.png";
                 obj_body := [Byte.x02]; obj_content_type := "image/gif" |};
              {| obj_bucket := "magiccap"; obj_key := "adgjmpsv.png";
                 obj_body := [Byte.x01]; obj_content_type := "image/png" |} ];
          put_fault := fun _ _ => None;
          get_fault := fun _ _ => None;
          chunking := [(1, true)] |} |}.




End Example.

(** ** Authorization failures *)

(** The three ways the authorization of an upload fails, as the handler
    tells them apart. *)
Inductive AuthFailure : Type :=
| HeaderAbsent
| HeaderMalformed
| UnknownInstallation.

Definition auth_failure `{StrLower} (req : Request) (w : World) (k : AuthFailure)
    : Prop :=
  match k with
  | HeaderAbsent =>
      headers_getitem (headers req) "Authorization"
      = Raised (KeyError "Authorization")
  | HeaderMalformed =>
      exists h,
        headers_getitem (headers req) "Authorization" = Returned h
        /\ len (split " " h) <> 2
  | UnknownInstallation =>
      exists h scheme cred,
        headers_getitem (headers req) "Authorization" = Returned h
        /\ split " " h = [scheme; cred]
        /\ conn_fault (conn w) = None
        /\ installs (conn w) !! cred = None
  end.

(** The message the handler answers each kind with. *)
Definition auth_message (k : AuthFailure) : string :=
  match k with
  | HeaderAbsent => "No authorization header present."
  | HeaderMalformed => "Invalid authorization header present."
  | UnknownInstallation => "Invalid installation ID."
  end.

(** Two readings of the authorization header of one request agree. *)
Ltac same_header :=
  repeat match goal with
  | H1 : @headers_getitem _ ?hs ?k = Returned ?h,
    H2 : @headers_getitem _ ?hs ?k = Returned ?h' |- _ =>
      assert (h' = h) by congruence; subst h'; clear H2
  | H1 : split ?c ?h = _, H2 : split ?c ?h = _ |- _ =>
      rewrite H1 in H2; injection H2 as -> ->
  | H1 : split ?c ?h = [_; _], H2 : len (split ?c ?h) <> 2 |- _ =>
      rewrite H1 in H2; now contradiction H2
  end.

(** ** Backend errors of a retrieval *)

(** The error with which the backend reports that a key does not exist. *)
Definition is_no_such_key (e : Exception) : bool :=
  match e with
  | ClientError code => String.eqb code "NoSuchKey"
  | _ => false
  end.

(** ** Whitespace-separated tokens *)

Definition is_whitespace (c : ascii) : bool :=
  let n := N_of_ascii c in
  (((9 <=? n) && (n <=? 13)) || ((28 <=? n) && (n <=? 32)))%N.

(** The pieces of [s] between the characters that satisfy [p]. *)
Fixpoint fields (p : ascii -> bool) (s : string) : list string :=
  match s with
  | EmptyString => [EmptyString]
  | String c r =>
      if p c then EmptyString :: fields p r
      else match fields p r with
           | t :: ts => String c t :: ts
           | [] => [String c EmptyString]
           end
  end.

(** The whitespace-separated tokens of a string, in the specification's
    sense: the maximal runs of characters that are not whitespace. *)
Definition whitespace_tokens (s : string) : list string :=
  List.filter (fun t => negb (String.eqb t EmptyString)) (fields is_whitespace s).

Definition malformed_response : Response :=
  error_response "Invalid authorization header present.".

(** The failure paths of an upload that the handler answers itself: the
    three authorization failures, and an authorized request whose [files]
    have no [data]. *)
Definition upload_failure `{StrLower} (req : Request) (w : World) : Prop :=
  (exists k, auth_failure req w k)
  \/ (authorized req w /\ files req !! "data" = None).

(** The call that takes [w] to [w'] wrote exactly [n] objects. *)
Definition objects_written (w w' : World) (n : nat) : Prop :=
  exists os, length os = n /\ objects (client w') = os ++ objects (client w).

(** ** Worlds that differ in one collaborator *)

(** The world with the stored objects replaced. *)
Definition with_objects (os : list StoredObject) (w : World) : World :=
  {| environ := environ w; conn := conn w; rng := rng w;
     client :=
       {| objects := os;
          put_fault := put_fault (client w);
          get_fault := get_fault (client w);
          chunking := chunking (client w) |} |}.

(** The world with the generator replaced. *)
Definition with_rng (g : Random) (w : World) : World :=
  {| environ := environ w; conn := conn w; client := client w; rng := g |}.

(** ** The letters of a random file name *)

(** [string.ascii_lowercase[i]] for an index in range. *)
Definition nth_letter (i : nat) : ascii :=
  match String.get i ascii_lowercase with
  | Some c => c
  | None => "a"%char
  end.

(** The [n] letters chosen from the draws [d] at positions [c], [c+1], ... *)
Fixpoint letters_from (d : nat -> nat) (c n : nat) : string :=
  match n with
  | 0 => EmptyString
  | S n' => String (nth_letter (d c mod 26)) (letters_from d (S c) n')
  end.

(** The position of a lowercase letter in the alphabet. *)
Definition letter_index (c : ascii) : nat := nat_of_ascii c - 97.

(** Draws that spell the string [p]. *)
Definition draws_for (p : string) (n : nat) : nat :=
  match String.get n p with
  | Some c => letter_index c
  | None => 0
  end.

(** ** What an upload looks at *)

(** The first [data] part of a request: absent name, empty list, or the
    part. *)
Definition first_data (req : Request) : option (option File) :=
  match files req !! "data" with
  | None => None
  | Some parts => Some (head parts)
  end.

(** ** The answer of a read *)

(** What [get_object] answers for a stored object. *)
Definition output_of (c : S3Client) (o : StoredObject) : GetObjectOutput :=
  {| ContentType := obj_content_type o;
     Body := {| chunks := split_chunks (chunking c) (obj_body o);
                stream_error := None |} |}.

(** ** Start-up: [RethinkSanic] and its [before_server_start] listener *)

(** The RethinkDB server as the start-up queries see it: the tables of
    each database, and the secondary indexes of each table.
    [connect_fault] is the error with which a connection with the given
    host, user and password is refused.  The classes of ReQL errors are
    not told apart (the code that runs the queries catches
    [BaseException]); they are all [ReqlDriverError]. *)
Record RethinkServer : Type := {
  databases : gmap string (gmap string (gset string));
  connect_fault : string -> string -> string -> option Exception
}.

(** An open connection: the database its queries run in. *)
Record Connection : Type := {
  db : string
}.

(** The [RethinkSanic] instance: [self.conn] and [self.client], [None]
    until the listener has run.  The client is kept as the keyword
    arguments it was created with. *)
Record RethinkSanic : Type := {
  app_conn : option Connection;
  app_client : option (gmap string string)
}.

(** The process at start-up.  [query_clock] counts the queries sent so
    far, and [query_fault t] is the error that the query number [t] is
    answered with instead of being carried out (a lost connection, a
    time-out, a refusal): [None] when the server carries it out.  Such an
    error may come and go from one query to the next.  [client_fault] is
    the error with which the creation of an S3 client with the given
    arguments fails. *)
Record Boot : Type := {
  boot_environ : gmap string string;
  server : RethinkServer;
  query_clock : nat;
  query_fault : nat -> option Exception;
  client_fault : gmap string string -> option Exception;
  instance : RethinkSanic
}.

Definition B (A : Type) : Type := Boot -> Outcome A * Boot.

Definition bindB {A C : Type} (m : B A) (k : A -> B C) : B C :=
  fun b =>
    match m b with
    | (Returned a, b') => k a b'
    | (Raised e, b') => (Raised e, b')
    end.

Notation "x <~ m ; k" := (bindB m (fun x => k))
  (at level 20, m at level 100, k at level 200, only parsing).

(** [try: m  except BaseException: pass] *)
Definition except_pass (m : B unit) : B unit :=
  fun b =>
    match m b with
    | (Returned _, b') => (Returned tt, b')
    | (Raised _, b') => (Returned tt, b')
    end.

Definition with_server (s : RethinkServer) (b : Boot) : Boot :=
  {| boot_environ := boot_environ b; server := s;
     query_clock := query_clock b; query_fault := query_fault b;
     client_fault := client_fault b; instance := instance b |}.

Definition with_databases (d : gmap string (gmap string (gset string)))
    (s : RethinkServer) : RethinkServer :=
  {| databases := d; connect_fault := connect_fault s |}.

(** The process with [self.conn] set. *)
Definition with_conn (c : Connection) (b : Boot) : Boot :=
  {| boot_environ := boot_environ b; server := server b;
     query_clock := query_clock b; query_fault := query_fault b;
     client_fault := client_fault b;
     instance := {| app_conn := Some c; app_client := app_client (instance b) |} |}.

(** The process after one more query has been sent. *)
Definition tick (b : Boot) : Boot :=
  {| boot_environ := boot_environ b; server := server b;
     query_clock := S (query_clock b); query_fault := query_fault b;
     client_fault := client_fault b; instance := instance b |}.

(** [await query.run(self.conn)]: a query needs a connection; it is then
    either answered with an error or carried out by the server. *)
Definition run (query : Connection -> RethinkServer -> Outcome unit * RethinkServer)
    : B unit :=
  fun b =>
    match app_conn (instance b) with
    | None =>
        (Raised (ReqlDriverError "RqlQuery.run must be given a connection to run on."),
         b)
    | Some c =>
        match query_fault b (query_clock b) with
        | Some e => (Raised e, tick b)
        | None =>
            match query c (server b) with
            | (o, s') => (o, tick (with_server s' b))
            end
        end
    end.

(** [r.db_create(name)] *)
Definition db_create (name : string) (_ : Connection) (s : RethinkServer)
    : Outcome unit * RethinkServer :=
  match databases s !! name with
  | Some _ => (Raised (ReqlDriverError "Database already exists."), s)
  | None => (Returned tt, with_databases (<[name := ∅]> (databases s)) s)
  end.

(** [r.table_create(name)], in the database of the connection *)
Definition table_create (name : string) (c : Connection) (s : RethinkServer)
    : Outcome unit * RethinkServer :=
  match databases s !! db c with
  | None => (Raised (ReqlDriverError "Database does not exist."), s)
  | Some tables =>
      match tables !! name with
      | Some _ => (Raised (ReqlDriverError "Table already exists."), s)
      | None =>
          (Returned tt,
           with_databases (<[db c := <[name := ∅]> tables]> (databases s)) s)
      end
  end.

(** [r.table(table).index_create(index)] *)
Definition index_create (table index : string) (c : Connection) (s : RethinkServer)
    : Outcome unit * RethinkServer :=
  match databases s !! db c with
  | None => (Raised (ReqlDriverError "Database does not exist."), s)
  | Some tables =>
      match tables !! table with
      | None => (Raised (ReqlDriverError "Table does not exist."), s)
      | Some indexes =>
          if decide (index ∈ indexes) then
            (Raised (ReqlDriverError "Index already exists."), s)
          else
            (Returned tt,
             with_databases
               (<[db c := <[table := {[index]} ∪ indexes]> tables]> (databases s)) s)
      end
  end.

(** [RethinkSanic.create_db_if_not_exists] *)
Definition create_db_if_not_exists (name : string) : B unit :=
  except_pass (run (db_create name)).

(** [RethinkSanic.create_table_if_not_exists] *)
Definition create_table_if_not_exists (table : string) : B unit :=
  except_pass (run (table_create table)).

(** [RethinkSanic.create_index_if_not_exists] *)
Definition create_index_if_not_exists (table index : string) : B unit :=
  except_pass (run (index_create table index)).

(** [set_if_exists(k, as_)], the closure of [create_s3_client]:
    [kwargs[as_] = os.environ[k]], and nothing on [KeyError]. *)
Definition set_if_exists (env : gmap string string) (k as_ : string)
    (kwargs : gmap string string) : gmap string string :=
  match dict_getitem env k with
  | Returned v => <[as_ := v]> kwargs
  | Raised _ => kwargs
  end.

(** The keyword arguments that [create_s3_client] collects. *)
Definition s3_kwargs (env : gmap string string) : gmap string string :=
  set_if_exists env "AWS_REGION" "region_name"
    (set_if_exists env "AWS_ACCESS_KEY_ID" "aws_access_key_id"
       (set_if_exists env "AWS_SECRET_ACCESS_KEY" "aws_secret_access_key"
          (set_if_exists env "AWS_ENDPOINT" "endpoint_url" ∅))).

(** [RethinkSanic.create_s3_client] *)
Definition create_s3_client : B unit :=
  fun b =>
    let kwargs := s3_kwargs (boot_environ b) in
    match client_fault b kwargs with
    | Some e => (Raised e, b)
    | None =>
        (Returned tt,
         {| boot_environ := boot_environ b; server := server b;
            query_clock := query_clock b; query_fault := query_fault b;
            client_fault := client_fault b;
            instance := {| app_conn := app_conn (instance b);
                           app_client := Some kwargs |} |})
    end.

(** [os.environ.get(k) or default]: the default also stands in for an
    empty value. *)
Definition environ_get_or (env : gmap string string) (k default : string) : string :=
  match env !! k with
  | Some v => if String.eqb v EmptyString then default else v
  | None => default
  end.

(** [app.conn = await r.connect(host=, user=, password=)] *)
Definition r_connect (host user password : string) : B unit :=
  fun b =>
    match connect_fault (server b) host user password with
    | Some e => (Raised e, b)
    | None =>
        (Returned tt,
         {| boot_environ := boot_environ b; server := server b;
            query_clock := query_clock b; query_fault := query_fault b;
            client_fault := client_fault b;
            instance := {| app_conn := Some {| db := "test" |};
                           app_client := app_client (instance b) |} |})
    end.

(** [app.conn.use(name)] *)
Definition conn_use (name : string) : B unit :=
  fun b =>
    match app_conn (instance b) with
    | None => (Raised (ReqlDriverError "Connection is closed."), b)
    | Some _ =>
        (Returned tt,
         {| boot_environ := boot_environ b; server := server b;
            query_clock := query_clock b; query_fault := query_fault b;
            client_fault := client_fault b;
            instance := {| app_conn := Some {| db := name |};
                           app_client := app_client (instance b) |} |})
    end.

(** [RethinkSanic._connect_rethinkdb_and_s3], the listener that runs
    before the server starts. *)
Definition _connect_rethinkdb_and_s3 : B unit :=
  fun b =>
    (_ <~ r_connect
            (environ_get_or (boot_environ b) "RETHINKDB_HOSTNAME" "127.0.0.1")
            (environ_get_or (boot_environ b) "RETHINKDB_USER" "admin")
            (environ_get_or (boot_environ b) "RETHINKDB_PASSWORD" "");
     _ <~ create_db_if_not_exists "magiccap";
     _ <~ conn_use "magiccap";
     _ <~ create_table_if_not_exists "uploads";
     _ <~ create_table_if_not_exists "installs";
     create_s3_client) b.

(** [RethinkSanic.__init__]: no connection and no client yet. *)
Definition RethinkSanic_init : RethinkSanic :=
  {| app_conn := None; app_client := None |}.

(** Nothing that the first server holds is missing from the second:
    every database, table and index is still there. *)
Definition keeps_schema (s s' : RethinkServer) : Prop :=
  forall d tables,
    databases s !! d = Some tables ->
    exists tables',
      databases s' !! d = Some tables'
      /\ forall t indexes,
           tables !! t = Some indexes ->
           exists indexes', tables' !! t = Some indexes' /\ indexes ⊆ indexes'.

(** The process after a query whose failure, if any, is swallowed. *)
Definition after_query
    (query : Connection -> RethinkServer -> Outcome unit * RethinkServer)
    (b : Boot) : Boot :=
  match app_conn (instance b) with
  | None => b
  | Some c =>
      match query_fault b (query_clock b) with
      | Some _ => tick b
      | None => tick (with_server (snd (query c (server b))) b)
      end
  end.

(** The process after the creation queries of the listener, before the
    S3 client is made. *)
Definition after_schema_steps (b : Boot) : Boot :=
  after_query (table_create "installs")
    (after_query (table_create "uploads")
       (with_conn {| db := "magiccap" |}
          (after_query (db_create "magiccap") (with_conn {| db := "test" |} b)))).

(** The server after the three creation queries of the listener, each
    carried out with the connection it runs on. *)
Definition after_creation_queries (s : RethinkServer) : RethinkServer :=
  snd (table_create "installs" {| db := "magiccap" |}
         (snd (table_create "uploads" {| db := "magiccap" |}
                 (snd (db_create "magiccap" {| db := "test" |} s))))).

(** A process about to start, for running the listener. *)
Definition boot_example (env : gmap string string)
    (dbs : gmap string (gmap string (gset string))) : Boot :=
  {| boot_environ := env;
     server := {| databases := dbs;
                  connect_fault := fun _ user _ =>
                    if String.eqb user "admin" then None
                    else Some (ReqlDriverError "Unknown user") |};
     query_clock := 0;
     query_fault := fun _ => None;
     client_fault := fun _ => None;
     instance := RethinkSanic_init |}.

(** A connected process whose queries are all answered with an error. *)
Definition boot_refused : Boot :=
  {| boot_environ := {["AWS_REGION" := "eu-west-1"]};
     server := {| databases := ∅; connect_fault := fun _ _ _ => None |};
     query_clock := 0;
     query_fault := fun _ => Some (ReqlDriverError "Permission denied");
     client_fault := fun _ => None;
     instance := RethinkSanic_init |}.

(** A connected process whose first query is lost. *)
Definition boot_first_lost : Boot :=
  {| boot_environ := ∅;
     server := {| databases := ∅; connect_fault := fun _ _ _ => None |};
     query_clock := 0;
     query_fault := fun t => if Nat.eqb t 0 then Some (ReqlDriverError "Timed out")
                             else None;
     client_fault := fun _ => None;
     instance := {| app_conn := Some {| db := "test" |}; app_client := None |} |}.

(** A connected process whose second query is lost. *)
Definition boot_connected : Boot :=
  {| boot_environ := ∅;
     server := {| databases := {["magiccap" := {["installs" := ∅]}]};
                  connect_fault := fun _ _ _ => None |};
     query_clock := 0;
     query_fault := fun t => if Nat.eqb t 1 then Some (ReqlDriverError "Timed out")
                             else None;
     client_fault := fun _ => None;
     instance := {| app_conn := Some {| db := "magiccap" |}; app_client := None |} |}.

(** * Properties *)

Section Properties.

Context `{py_lower : StrLower}.

(** ** Properties of the string operations *)

Lemma split_not_nil (sep : ascii) (s : string) : split sep s <> [].
Proof.
  destruct s as [|c r]; simpl; [discriminate|].
  destruct (Ascii.eqb c sep); [discriminate|].
  destruct (split sep r); discriminate.
Qed.

Lemma split_length (sep : ascii) (s : string) :
  length (split sep s) = S (occurrences sep s).
Proof.
  induction s as [|c r IH]; simpl; [reflexivity|].
  destruct (Ascii.eqb c sep); simpl.
  - now rewrite IH.
  - pose proof (split_not_nil sep r) as Hne.
    destruct (split sep r) as [|t ts]; [congruence|].
    simpl in *. exact IH.
Qed.

Lemma split_no_sep (sep : ascii) (s : string) :
  occurrences sep s = 0 -> split sep s = [s].
Proof.
  induction s as [|c r IH]; simpl; [reflexivity|].
  destruct (Ascii.eqb c sep); simpl; [discriminate|].
  intros H. now rewrite (IH H).
Qed.

Lemma pop_cons {A : Type} (x : A) (l : list A) :
  l <> [] -> pop (x :: l) = pop l.
Proof. destruct l; [congruence | reflexivity]. Qed.

Lemma pop_not_nil {A : Type} (l : list A) :
  l <> [] -> exists x, pop l = Returned x.
Proof.
  induction l as [|x r IH]; [congruence|].
  intros _. destruct r as [|y r'].
  - now exists x.
  - rewrite pop_cons by discriminate. apply IH. discriminate.
Qed.

(** Splitting never yields an empty list, so the [pop] that follows it
    never raises. *)
Lemma pop_split_returns (sep : ascii) (s : string) :
  exists e, pop (split sep s) = Returned e.
Proof. apply pop_not_nil, split_not_nil. Qed.

Lemma occurrences_app (c : ascii) (a b : string) :
  occurrences c (a +:+ b) = occurrences c a + occurrences c b.
Proof. induction a as [|d r IH]; simpl; [reflexivity | rewrite IH; lia]. Qed.

(** The last piece of a split is what follows the last separator. *)
Lemma pop_split_app (sep : ascii) (pre suf : string) :
  pop (split sep (pre +:+ String sep suf)) = pop (split sep suf).
Proof.
  induction pre as [|c r IH]; simpl.
  - rewrite Ascii.eqb_refl. apply pop_cons, split_not_nil.
  - pose proof (split_length sep (r +:+ String sep suf)) as Hlen.
    rewrite occurrences_app in Hlen. simpl in Hlen.
    rewrite Ascii.eqb_refl in Hlen.
    destruct (Ascii.eqb c sep).
    + rewrite pop_cons by apply split_not_nil. exact IH.
    + rewrite <- IH.
      destruct (split sep (r +:+ String sep suf)) as [|t [|t' ts]];
        simpl in Hlen; try lia.
      reflexivity.
Qed.

(** The extension of a name without a dot is the whole name. *)
Lemma file_ext_no_dot (n : string) :
  occurrences "." n = 0 -> file_ext n = Returned (lower n).
Proof. intros H. unfold file_ext. now rewrite (split_no_sep _ _ H). Qed.

(** The extension of a name with a dot is what follows its last dot. *)
Lemma file_ext_last_dot (pre suf : string) :
  occurrences "." suf = 0 ->
  file_ext (pre +:+ String "." suf) = Returned (lower suf).
Proof.
  intros H. unfold file_ext.
  now rewrite pop_split_app, (split_no_sep _ _ H).
Qed.

Lemma file_ext_returns (n : string) :
  exists e, file_ext n = Returned (lower e) /\ pop (split "." n) = Returned e.
Proof.
  destruct (pop_split_returns "." n) as [e He].
  exists e. unfold file_ext. now rewrite He.
Qed.

(** ** Properties of the random file name *)

Lemma advance_rng_0 (w : World) : advance_rng 0 w = w.
Proof. destruct w as [e c cl [d cur]]. reflexivity. Qed.

Lemma advance_rng_S (n : nat) (w : World) :
  advance_rng n (advance_rng 1 w) = advance_rng (S n) w.
Proof. unfold advance_rng. simpl. do 2 f_equal. lia. Qed.

Lemma get_ascii_lowercase (i : nat) :
  i < 26 ->
  exists c, String.get i ascii_lowercase = Some c /\ is_lowercase_letter c = true.
Proof.
  intros Hi. unfold ascii_lowercase.
  do 26 (destruct i as [|i]; [eexists; split; reflexivity|]).
  lia.
Qed.

Lemma choice_ascii_lowercase (w : World) :
  exists c,
    choice ascii_lowercase w = (Returned (String c EmptyString), advance_rng 1 w)
    /\ is_lowercase_letter c = true.
Proof.
  assert (Hlt : draws (rng w) (cursor (rng w)) mod 26 < 26)
    by (apply Nat.mod_upper_bound; discriminate).
  destruct (get_ascii_lowercase _ Hlt) as (c & Hget & Hc).
  exists c. split; [|exact Hc].
  unfold choice, bind, randbelow.
  change (String.length ascii_lowercase) with 26 in *.
  cbv beta iota zeta. rewrite Hget. reflexivity.
Qed.

Lemma list_comp_choice (n : nat) (w : World) :
  exists cs,
    list_comp n (choice ascii_lowercase) w = (Returned cs, advance_rng n w)
    /\ String.length (join cs) = n
    /\ all_lowercase_letters (join cs) = true.
Proof.
  revert w. induction n as [|n IH]; intros w.
  - exists []. rewrite advance_rng_0. now split.
  - destruct (choice_ascii_lowercase w) as (c & Hc & Hlow).
    destruct (IH (advance_rng 1 w)) as (cs & Hcs & Hlen & Hall).
    exists (String c EmptyString :: cs).
    split; [|split].
    + cbn [list_comp]. unfold bind at 1. rewrite Hc.
      unfold bind at 1. rewrite Hcs. rewrite advance_rng_S. reflexivity.
    + simpl. f_equal. exact Hlen.
    + simpl. rewrite Hlow. exact Hall.
Qed.

(** The random file name is always produced, takes eight draws, and is
    made of eight lowercase letters. *)
Lemma random_filename_returns (w : World) :
  exists prefix,
    random_filename w = (Returned prefix, advance_rng 8 w)
    /\ String.length prefix = 8
    /\ all_lowercase_letters prefix = true.
Proof.
  destruct (list_comp_choice 8 w) as (cs & Hcs & Hlen & Hall).
  exists (join cs). split; [|now split].
  unfold random_filename, bind. now rewrite Hcs.
Qed.

(** ** The runs of [upload] are all its behaviours *)

Lemma headers_getitem_raises (h : list (string * string)) (k : string) (e : Exception) :
  headers_getitem h k = Raised e -> e = KeyError k.
Proof.
  induction h as [|[n v] r IH]; simpl.
  - congruence.
  - destruct (String.eqb (lower n) (lower k)); [discriminate | exact IH].
Qed.

Lemma upload_run_total (req : Request) (w : World) :
  upload_run req w (fst (upload req w)) (snd (upload req w)).
Proof.
  unfold upload.
  destruct (headers_getitem (headers req) "Authorization") as [h|e] eqn:Hh.
  2:{ apply headers_getitem_raises in Hh as He. subst e.
      unfold bind, try_except, fall_through, lift, bind. simpl.
      now apply run_no_header. }
  unfold bind at 1. unfold try_except, fall_through, lift, bind. simpl.
  destruct (Nat.eqb (len (split " " h)) 2) eqn:Hlen; simpl.
  2:{ apply Nat.eqb_neq in Hlen. now apply run_malformed with h. }
  apply Nat.eqb_eq in Hlen. unfold len in Hlen.
  destruct (split " " h) as [|scheme [|cred [|x l]]] eqn:Hsplit; try discriminate.
  unfold list_getitem. simpl. unfold installs_get.
  destruct (conn_fault (conn w)) as [e|] eqn:Hfault; simpl.
  { now apply run_registry_down with h scheme cred. }
  destruct (installs (conn w) !! cred) as [inst|] eqn:Hinst; simpl.
  2:{ now apply run_unknown with h scheme cred. }
  assert (Hauth : authorized req w) by (now exists h, scheme, cred, inst).
  unfold ret, dict_getitem.
  destruct (files req !! "data") as [[|file_ rest]|] eqn:Hfiles; simpl.
  - now apply run_empty_data.
  - destruct (random_filename_returns w) as (prefix & Hp & Hplen & Hplow).
    rewrite Hp.
    destruct (file_ext_returns (name file_)) as (e & He & Hpop).
    rewrite He. unfold os_environ, dict_getitem.
    change (environ (advance_rng 8 w)) with (environ w).
    destruct (environ w !! "AWS_BUCKET") as [bucket|] eqn:Henv; simpl.
    2:{ now apply run_no_bucket with file_ rest. }
    unfold put_object.
    change (client (advance_rng 8 w)) with (client w).
    destruct (put_fault (client w) bucket (prefix +:+ "." +:+ lower e))
      as [err|] eqn:Hput; simpl.
    + now apply run_put_failed with file_ rest prefix e bucket.
    + now apply run_ok with rest.
  - now apply run_no_data.
Qed.

(** ** Authorization failures *)

(** The header lookup raises exactly when no header of the request has
    the looked-up name, case aside. *)
Lemma headers_getitem_absent (h : list (string * string)) (k : string) :
  headers_getitem h k = Raised (KeyError k)
  <-> forall n v, In (n, v) h -> String.eqb (lower n) (lower k) = false.
Proof.
  induction h as [|[n v] r IH]; simpl.
  - split; [intros _ ? ? [] | reflexivity].
  - destruct (String.eqb (lower n) (lower k)) eqn:Heq.
    + split; [discriminate|].
      intros H. specialize (H n v (or_introl eq_refl)). congruence.
    + rewrite IH. split.
      * intros H n' v' [Hin|Hin]; [injection Hin as <- <-; exact Heq | eauto].
      * intros H n' v' Hin. apply (H n' v'). now right.
Qed.

Lemma authorized_header (req : Request) (w : World) (h : string) :
  authorized req w ->
  headers_getitem (headers req) "Authorization" = Returned h ->
  exists scheme cred inst,
    split " " h = [scheme; cred]
    /\ conn_fault (conn w) = None
    /\ installs (conn w) !! cred = Some inst.
Proof.
  intros (h' & scheme & cred & inst & Hh & Hs & Hf & Hi) Hh'.
  assert (h' = h) by congruence. subst h'.
  now exists scheme, cred, inst.
Qed.

Lemma authorized_not_failure (req : Request) (w : World) (k : AuthFailure) :
  authorized req w -> ~ auth_failure req w k.
Proof.
  intros (h & scheme & cred & inst & Hh & Hs & Hf & Hi).
  destruct k; simpl.
  - congruence.
  - intros (h' & Hh' & Hlen). assert (h' = h) by congruence. subst h'.
    rewrite Hs in Hlen. now apply Hlen.
  - intros (h' & s' & c' & Hh' & Hs' & _ & Hi').
    assert (h' = h) by congruence. subst h'.
    rewrite Hs in Hs'. injection Hs' as -> ->. congruence.
Qed.

Lemma upload_run_auth_failure (req : Request) (w w' : World)
    (o : Outcome Response) (k : AuthFailure) :
  upload_run req w o w' ->
  auth_failure req w k ->
  o = Returned (error_response (auth_message k)) /\ w' = w.
Proof.
  intros Hrun Hk.
  destruct Hrun;
    try (exfalso; eapply authorized_not_failure; eassumption);
    destruct k; simpl in Hk;
    repeat match goal with
    | H : exists _, _ |- _ => destruct H
    | H : _ /\ _ |- _ => destruct H
    end;
    same_header; try congruence; now split.
Qed.

Lemma upload_auth_failure (req : Request) (w : World) (k : AuthFailure) :
  auth_failure req w k ->
  upload req w = (Returned (error_response (auth_message k)), w).
Proof.
  intros Hk.
  destruct (upload_run_auth_failure _ _ _ _ _ (upload_run_total req w) Hk)
    as [Ho Hw].
  rewrite (surjective_pairing (upload req w)), Ho, Hw. reflexivity.
Qed.

(** C7: each of the three authorization failures (header absent, header
    malformed, credential unknown to the registry) is answered with status
    400 and a JSON body [{"error": message}], the world is left as it was,
    and the messages of the three kinds are pairwise distinct. *)
Theorem auth_failure_400 (req : Request) (w : World) (k : AuthFailure) :
  auth_failure req w k ->
  upload req w
  = (Returned (HTTPResponse (JsonBody [("error", auth_message k)]) 400
                 "application/json"), w)
  /\ forall k', auth_message k' = auth_message k -> k' = k.
Proof.
  intros Hk. split.
  - now apply upload_auth_failure.
  - intros k'. destruct k, k'; simpl; intros H; try reflexivity; discriminate.
Qed.

(** ** Retrieval *)

Lemma image_view_get_object (item bucket : string) (w : World) :
  environ w !! "AWS_BUCKET" = Some bucket ->
  image_view item w
  = match get_object bucket item w with
    | (Returned get_res, w') =>
        (Returned (response_stream {| s3_response := get_res |}
                     (ContentType get_res)), w')
    | (Raised (ClientError _), w') => (Returned (response_text "Not found." 404), w')
    | (Raised e, w') => (Raised e, w')
    end.
Proof.
  intros Henv.
  unfold image_view, try_except, bind, os_environ, dict_getitem.
  rewrite Henv.
  destruct (get_object bucket item w) as [[get_res|e] w']; [reflexivity|].
  destruct e; reflexivity.
Qed.

(** C8: when the backend reports that the key does not exist, retrieval
    answers status 404 with the plain-text body "Not found.". *)
Theorem image_view_not_found (item bucket : string) (w w' : World) (e : Exception) :
  environ w !! "AWS_BUCKET" = Some bucket ->
  get_object bucket item w = (Raised e, w') ->
  is_no_such_key e = true ->
  image_view item w
  = (Returned (HTTPResponse (TextBody "Not found.") 404 "text/plain; charset=utf-8"),
     w').
Proof.
  intros Henv Hget Hnf.
  rewrite (image_view_get_object _ _ _ Henv), Hget.
  destruct e; try discriminate. reflexivity.
Qed.

(** C1, amended: an error of the storage read that is not a botocore
    [ClientError] is not recovered, it leaves the handler as it came; a
    [ClientError], whatever its error code, is answered with the 404
    response. *)
Theorem image_view_backend_error (item bucket : string) (w w' : World) (e : Exception) :
  environ w !! "AWS_BUCKET" = Some bucket ->
  get_object bucket item w = (Raised e, w') ->
  image_view item w
  = match e with
    | ClientError _ => (Returned (response_text "Not found." 404), w')
    | _ => (Raised e, w')
    end.
Proof.
  intros Henv Hget.
  rewrite (image_view_get_object _ _ _ Henv), Hget.
  destruct e; reflexivity.
Qed.

(** ** Streaming *)

Lemma fold_left_write (cs : list (bytes * bool)) (written : list bytes) :
  fold_left (fun acc chunk => acc ++ [fst chunk]) cs written
  = written ++ map fst cs.
Proof.
  revert written. induction cs as [|c r IH]; intros written; simpl.
  - now rewrite app_nil_r.
  - rewrite IH, <- app_assoc. reflexivity.
Qed.

(** What [response.write] has sent after the call, whether or not the
    body ended with an error. *)
Lemma SanicS3Stream_call_written (self : SanicS3Stream) (written : list bytes) :
  snd (SanicS3Stream_call self written)
  = written ++ map fst (chunks (Body (s3_response self))).
Proof.
  unfold SanicS3Stream_call.
  destruct (stream_error (Body (s3_response self))); simpl; apply fold_left_write.
Qed.

(** C9: on a read that ends without error, the writes of the streaming
    function are exactly the data of the chunks that the storage body
    yields, one write per chunk, whole and in order; the bytes written to
    the response are their concatenation. *)
Theorem stream_forwards_chunks_in_order (self : SanicS3Stream) (written : list bytes) :
  stream_error (Body (s3_response self)) = None ->
  SanicS3Stream_call self written
  = (Returned tt, written ++ map fst (chunks (Body (s3_response self))))
  /\ concat (snd (SanicS3Stream_call self written))
     = concat written ++ concat (map fst (chunks (Body (s3_response self)))).
Proof.
  intros Hok.
  assert (Hcall : SanicS3Stream_call self written
            = (Returned tt, written ++ map fst (chunks (Body (s3_response self))))).
  { unfold SanicS3Stream_call. rewrite Hok, fold_left_write. reflexivity. }
  split; [exact Hcall|].
  rewrite Hcall. cbn [snd]. apply concat_app.
Qed.

(** ** The [data] part *)

(** C10: an authorized upload whose [files] dict has the name [data] with
    an empty list of parts raises [IndexError] out of the handler; it is
    not answered with the 400 "No data found." response. *)
Theorem upload_empty_data_raises (req : Request) (w : World) :
  authorized req w ->
  files req !! "data" = Some [] ->
  upload req w = (Raised IndexError, w)
  /\ fst (upload req w) <> Returned (error_response "No data found.").
Proof.
  intros Hauth Hdata.
  assert (H : upload req w = (Raised IndexError, w)).
  { pose proof (upload_run_total req w) as Hrun.
    rewrite (surjective_pairing (upload req w)).
    destruct Hauth as (h0 & s0 & c0 & i0 & Hh0 & Hs0 & Hf0 & Hi0).
    destruct Hrun; same_header; congruence. }
  split; [exact H|]. rewrite H. discriminate.
Qed.

(** ** The shape of the authorization header *)

(** C3, amended: the shape of a present authorization header is accepted
    if and only if the value contains exactly one space character, that
    is, if splitting it at every space gives exactly two pieces; every
    other value is answered with the 400 response of a malformed header,
    and the world is left as it was. *)
Theorem header_shape_single_space (req : Request) (w : World) (h : string) :
  headers_getitem (headers req) "Authorization" = Returned h ->
  (occurrences " " h = 1 <-> fst (upload req w) <> Returned malformed_response)
  /\ (occurrences " " h <> 1 -> upload req w = (Returned malformed_response, w)).
Proof.
  intros Hh.
  assert (Hbad : occurrences " " h <> 1 ->
                 upload req w = (Returned malformed_response, w)).
  { intros Hocc.
    apply (upload_auth_failure req w HeaderMalformed).
    exists h. split; [exact Hh|]. unfold len. rewrite split_length. lia. }
  split; [split|exact Hbad].
  - intros Hocc.
    pose proof (upload_run_total req w) as Hrun.
    destruct Hrun; try discriminate.
    same_header. exfalso.
    match goal with H : len _ <> 2 |- _ => apply H end.
    unfold len. rewrite split_length, Hocc. reflexivity.
  - intros Hne.
    destruct (Nat.eq_dec (occurrences " " h) 1) as [Heq|Hocc]; [exact Heq|].
    exfalso. apply Hne. now rewrite (Hbad Hocc).
Qed.

(** ** Successful uploads *)

Lemma append_inj_r (p a b : string) : p +:+ a = p +:+ b -> a = b.
Proof. induction p as [|c r IH]; simpl; [auto | intros H; injection H; auto]. Qed.

Lemma url_response_inj (k k' : string) : url_response k = url_response k' -> k = k'.
Proof.
  unfold url_response, response_json. intros H.
  injection H as H. now apply append_inj_r in H.
Qed.

(** An upload that is answered with status 200 went all the way: it was
    authorized, had a first [data] part, and wrote that part under the
    generated key. *)
Lemma upload_200_inv (req : Request) (w w' : World) (resp : Response) :
  upload req w = (Returned resp, w') ->
  status_of resp = 200 ->
  exists file_ rest prefix e bucket,
    authorized req w
    /\ files req !! "data" = Some (file_ :: rest)
    /\ String.length prefix = 8
    /\ all_lowercase_letters prefix = true
    /\ pop (split "." (name file_)) = Returned e
    /\ environ w !! "AWS_BUCKET" = Some bucket
    /\ put_fault (client w) bucket (prefix +:+ "." +:+ lower e) = None
    /\ resp = url_response (prefix +:+ "." +:+ lower e)
    /\ w' = store_object
              {| obj_bucket := bucket; obj_key := prefix +:+ "." +:+ lower e;
                 obj_body := body file_; obj_content_type := type file_ |}
              (advance_rng 8 w).
Proof.
  intros Hup Hst.
  pose proof (upload_run_total req w) as Hrun.
  rewrite Hup in Hrun. simpl in Hrun.
  inversion Hrun; subst; try discriminate.
  match goal with
  | H : files req !! "data" = Some (?f :: ?r),
    Hp : pop _ = Returned ?e, Hb : environ w !! _ = Some ?b,
    Hl : String.length ?p = 8 |- _ =>
      exists f, r, p, e, b
  end.
  repeat split; assumption.
Qed.

(** An upload that is answered with another status is answered with 400,
    and the world is left as it was. *)
Lemma upload_not_200_inv (req : Request) (w w' : World) (resp : Response) :
  upload req w = (Returned resp, w') ->
  status_of resp <> 200 ->
  status_of resp = 400 /\ w' = w.
Proof.
  intros Hup Hst.
  pose proof (upload_run_total req w) as Hrun.
  rewrite Hup in Hrun. simpl in Hrun.
  inversion Hrun; subst; now split.
Qed.

Lemma upload_raised_inv (req : Request) (w w' : World) (e : Exception) :
  upload req w = (Raised e, w') ->
  objects (client w') = objects (client w).
Proof.
  intros Hup.
  pose proof (upload_run_total req w) as Hrun.
  rewrite Hup in Hrun. simpl in Hrun.
  inversion Hrun; subst; reflexivity.
Qed.

Lemma upload_failure_unchanged (req : Request) (w : World) :
  upload_failure req w ->
  exists msg, upload req w = (Returned (error_response msg), w).
Proof.
  intros [[k Hk]|[Hauth Hdata]].
  - exists (auth_message k). now apply upload_auth_failure.
  - exists "No data found.".
    pose proof (upload_run_total req w) as Hrun.
    rewrite (surjective_pairing (upload req w)).
    destruct Hauth as (h0 & s0 & c0 & i0 & Hh0 & Hs0 & Hf0 & Hi0).
    destruct Hrun; same_header; congruence.
Qed.

Lemma objects_written_same (w w' : World) :
  objects (client w') = objects (client w) -> objects_written w w' 0.
Proof. intros H. now exists []. Qed.

(** C5: a call of the upload handler that succeeds (status 200) writes
    exactly one object; a call that is answered with another status, or
    that raises, writes none; and each of the failure paths (authorization
    header missing or malformed, installation unknown, no [data] part) is
    answered with an error response and writes none. *)
Theorem upload_writes_one_or_none (req : Request) (w w' : World)
    (out : Outcome Response) :
  upload req w = (out, w') ->
  match out with
  | Returned resp =>
      if Nat.eqb (status_of resp) 200 then objects_written w w' 1
      else objects_written w w' 0
  | Raised _ => objects_written w w' 0
  end
  /\ (upload_failure req w ->
      exists msg, out = Returned (error_response msg) /\ objects_written w w' 0).
Proof.
  intros Hup. split.
  - destruct out as [resp|e].
    + destruct (Nat.eqb (status_of resp) 200) eqn:Hst.
      * apply Nat.eqb_eq in Hst.
        destruct (upload_200_inv _ _ _ _ Hup Hst)
          as (f & r & p & e & b & _ & _ & _ & _ & _ & _ & _ & _ & Hw).
        subst w'. eexists [_]. split; reflexivity.
      * apply Nat.eqb_neq in Hst.
        destruct (upload_not_200_inv _ _ _ _ Hup Hst) as [_ Hw].
        subst w'. now apply objects_written_same.
    + apply objects_written_same. eapply upload_raised_inv, Hup.
  - intros Hfail.
    destruct (upload_failure_unchanged _ _ Hfail) as [msg Hmsg].
    exists msg. rewrite Hmsg in Hup. injection Hup as <- <-.
    split; [reflexivity | now apply objects_written_same].
Qed.

(** C6: the key of a successful upload is eight lowercase ASCII letters,
    then the separator ".", then the lower-cased extension of the name of
    the uploaded file, the extension being the piece after the last "."
    of the name; the object is written under that key and the returned
    URL is the public base followed by it. *)
Theorem upload_key_shape (req : Request) (w w' : World) (resp : Response) :
  upload req w = (Returned resp, w') ->
  status_of resp = 200 ->
  exists file_ rest prefix e o,
    files req !! "data" = Some (file_ :: rest)
    /\ String.length prefix = 8
    /\ all_lowercase_letters prefix = true
    /\ pop (split "." (name file_)) = Returned e
    /\ (forall pre suf,
          name file_ = pre +:+ "." +:+ suf -> occurrences "." suf = 0 -> e = suf)
    /\ resp = url_response (prefix +:+ "." +:+ lower e)
    /\ objects (client w') = o :: objects (client w)
    /\ obj_key o = prefix +:+ "." +:+ lower e.
Proof.
  intros Hup Hst.
  destruct (upload_200_inv _ _ _ _ Hup Hst)
    as (f & r & p & e & b & _ & Hd & Hl & Hlow & Hpop & _ & _ & Hresp & Hw).
  exists f, r, p, e.
  eexists. repeat split; try eassumption.
  - intros pre suf Hname Hocc.
    rewrite Hname in Hpop.
    change (pre +:+ "." +:+ suf) with (pre +:+ String "." suf) in Hpop.
    rewrite pop_split_app, (split_no_sep _ _ Hocc) in Hpop.
    simpl in Hpop. congruence.
  - subst w'. reflexivity.
  - reflexivity.
Qed.

(** ** Names without a dot *)

(** C2, amended: for a name without ".", key generation does not raise;
    the whole name, lower-cased, is the extension, and the key is the
    eight-letter random prefix, the separator "." and that lower-cased
    name.  With the bucket configured and a backend that takes the write,
    the upload returns the URL of that key. *)
Theorem upload_no_dot_name (req : Request) (w : World) (file_ : File)
    (rest : list File) (bucket : string) :
  authorized req w ->
  files req !! "data" = Some (file_ :: rest) ->
  occurrences "." (name file_) = 0 ->
  environ w !! "AWS_BUCKET" = Some bucket ->
  (forall key, put_fault (client w) bucket key = None) ->
  file_ext (name file_) = Returned (lower (name file_))
  /\ exists prefix,
       random_filename w = (Returned prefix, advance_rng 8 w)
       /\ String.length prefix = 8
       /\ all_lowercase_letters prefix = true
       /\ fst (upload req w)
          = Returned (url_response (prefix +:+ "." +:+ lower (name file_))).
Proof.
  intros Hauth Hdata Hocc Henv Hput.
  split; [now apply file_ext_no_dot|].
  destruct (random_filename_returns w) as (prefix & Hp & Hlen & Hlow).
  exists prefix. repeat split; try assumption.
  pose proof (upload_run_total req w) as Hrun.
  destruct Hauth as (h0 & s0 & c0 & i0 & Hh0 & Hs0 & Hf0 & Hi0).
  destruct Hrun; same_header; try congruence.
  repeat match goal with
  | H1 : files req !! "data" = Some _, H2 : files req !! "data" = Some _ |- _ =>
      rewrite H1 in H2; injection H2 as <- <-
  | H1 : random_filename w = _, H2 : random_filename w = _ |- _ =>
      rewrite H1 in H2; injection H2 as <-
  | H1 : pop (split "." (name file_)) = Returned _ |- _ =>
      rewrite (split_no_sep _ _ Hocc) in H1; simpl in H1; injection H1 as <-
  end.
  reflexivity.
Qed.

(** ** Upload followed by retrieval *)

Lemma split_chunks_concat (sizes : list (nat * bool)) (data : bytes) :
  concat (map fst (split_chunks sizes data)) = data.
Proof.
  revert data. induction sizes as [|[n eoc] r IH]; intros data.
  - destruct data; simpl; [reflexivity | now rewrite app_nil_r].
  - destruct data as [|x d]; [reflexivity|].
    cbn [split_chunks map concat fst]. rewrite IH. apply take_drop.
Qed.

Lemma received_nonempty (written : list bytes) :
  Forall (fun data => data <> []) written -> received written = concat written.
Proof.
  induction 1 as [|data rest Hd _ IH]; [reflexivity|].
  destruct data as [|x d]; [congruence|].
  cbn [received concat]. now rewrite IH.
Qed.

Lemma split_chunks_nonempty (sizes : list (nat * bool)) (data : bytes) :
  Forall (fun p => fst p <> 0) sizes ->
  Forall (fun data => data <> []) (map fst (split_chunks sizes data)).
Proof.
  intros Hs. revert data. induction Hs as [|[n eoc] r Hn _ IH]; intros data.
  - destruct data; cbn; repeat constructor. discriminate.
  - destruct data as [|x d]; [constructor|].
    cbn [split_chunks map fst]. constructor; [|apply IH].
    cbn [fst] in Hn. destruct n as [|n]; [congruence | discriminate].
Qed.

(** A read that comes in chunks none of which is empty reaches the client
    whole. *)
Lemma stream_to_client_whole (content_type : string) (sizes : list (nat * bool))
    (data : bytes) :
  Forall (fun p => fst p <> 0) sizes ->
  stream_to_client
    {| s3_response :=
         {| ContentType := content_type;
            Body := {| chunks := split_chunks sizes data; stream_error := None |} |} |}
  = Returned data.
Proof.
  intros Hs. unfold stream_to_client, SanicS3Stream_call.
  cbn [s3_response Body chunks stream_error].
  rewrite fold_left_write. cbn [app].
  rewrite received_nonempty by now apply split_chunks_nonempty.
  now rewrite split_chunks_concat.
Qed.


(** * Further properties of the handlers *)

(** ** The runs of [upload], the other way round *)

Lemma random_filename_exact (w : World) :
  random_filename w
  = (Returned (letters_from (draws (rng w)) (cursor (rng w)) 8), advance_rng 8 w).
Proof.
  assert (Hchoice : forall w0,
            choice ascii_lowercase w0
            = (Returned (String (nth_letter (draws (rng w0) (cursor (rng w0)) mod 26))
                           EmptyString), advance_rng 1 w0)).
  { intros w0.
    assert (Hlt : draws (rng w0) (cursor (rng w0)) mod 26 < 26)
      by (apply Nat.mod_upper_bound; discriminate).
    destruct (get_ascii_lowercase _ Hlt) as (c & Hget & _).
    unfold choice, bind, randbelow, nth_letter.
    change (String.length ascii_lowercase) with 26 in *.
    cbv beta iota zeta. rewrite Hget. reflexivity. }
  assert (Hcomp : forall n w0,
            exists cs,
              list_comp n (choice ascii_lowercase) w0 = (Returned cs, advance_rng n w0)
              /\ join cs = letters_from (draws (rng w0)) (cursor (rng w0)) n).
  { induction n as [|n IH]; intros w0.
    - exists []. rewrite advance_rng_0. now split.
    - destruct (IH (advance_rng 1 w0)) as (cs & Hcs & Hj).
      eexists (_ :: cs). split.
      + cbn [list_comp]. unfold bind at 1. rewrite Hchoice.
        unfold bind at 1. rewrite Hcs, advance_rng_S. reflexivity.
      + cbn [join letters_from]. simpl String.append. f_equal. exact Hj. }
  destruct (Hcomp 8 w) as (cs & Hcs & Hj).
  unfold random_filename, bind. rewrite Hcs, Hj. reflexivity.
Qed.

(** Every run that [upload_run] describes is the run of [upload]. *)
Lemma upload_run_sound (req : Request) (w w' : World) (o : Outcome Response) :
  upload_run req w o w' -> upload req w = (o, w').
Proof.
  intros Hrun.
  pose proof (upload_run_total req w) as Htot.
  rewrite (surjective_pairing (upload req w)).
  destruct Hrun;
    repeat match goal with
    | H : authorized _ _ |- _ =>
        destruct H as (?h & ?s & ?c & ?i & ?Hh & ?Hs & ?Hf & ?Hi)
    end;
    inversion Htot;
    repeat match goal with
    | H : authorized _ _ |- _ =>
        destruct H as (?h & ?s & ?c & ?i & ?Hh & ?Hs & ?Hf & ?Hi)
    end;
    same_header; try congruence.
Qed.

Lemma letters_from_length (d : nat -> nat) (c n : nat) :
  String.length (letters_from d c n) = n.
Proof. revert c. induction n as [|n IH]; intros c; simpl; [reflexivity | now rewrite IH]. Qed.

Lemma nth_letter_lowercase (i : nat) : i < 26 -> is_lowercase_letter (nth_letter i) = true.
Proof.
  intros Hi. unfold nth_letter.
  destruct (get_ascii_lowercase i Hi) as (c & -> & Hc). exact Hc.
Qed.

Lemma letters_from_lowercase (d : nat -> nat) (c n : nat) :
  all_lowercase_letters (letters_from d c n) = true.
Proof.
  revert c. induction n as [|n IH]; intros c;
    cbn [letters_from all_lowercase_letters]; [reflexivity|].
  rewrite IH, nth_letter_lowercase; [reflexivity|].
  apply Nat.mod_upper_bound. discriminate.
Qed.

Lemma file_ext_pop (n ext : string) :
  file_ext n = Returned ext ->
  exists e, pop (split "." n) = Returned e /\ ext = lower e.
Proof.
  unfold file_ext. destruct (pop (split "." n)) as [e|err]; [|discriminate].
  intros H. exists e. split; [reflexivity | congruence].
Qed.

(** ** When an upload succeeds, and when it raises *)

Lemma upload_run_ok_exact (req : Request) (w : World) (file_ : File)
    (rest : list File) (bucket ext : string) :
  authorized req w ->
  files req !! "data" = Some (file_ :: rest) ->
  file_ext (name file_) = Returned ext ->
  environ w !! "AWS_BUCKET" = Some bucket ->
  put_fault (client w) bucket
    (letters_from (draws (rng w)) (cursor (rng w)) 8 +:+ "." +:+ ext) = None ->
  upload req w
  = (Returned (url_response
                 (letters_from (draws (rng w)) (cursor (rng w)) 8 +:+ "." +:+ ext)),
     store_object
       {| obj_bucket := bucket;
          obj_key := letters_from (draws (rng w)) (cursor (rng w)) 8 +:+ "." +:+ ext;
          obj_body := body file_; obj_content_type := type file_ |}
       (advance_rng 8 w)).
Proof.
  intros Hauth Hdata Hext Henv Hput.
  destruct (file_ext_pop _ _ Hext) as (e & Hpop & ->).
  apply upload_run_sound.
  apply run_ok with rest; try assumption.
  - apply random_filename_exact.
  - apply letters_from_length.
  - apply letters_from_lowercase.
Qed.

(** X1: an authorized request with a first [data] part succeeds as soon as the
    bucket is configured and the backend takes the write: the answer is
    the URL of the key made of the next eight draws and the extension, and
    the part is stored under that key with its declared type. *)
Theorem upload_succeeds (req : Request) (w : World) (file_ : File)
    (rest : list File) (bucket ext : string) :
  authorized req w ->
  files req !! "data" = Some (file_ :: rest) ->
  file_ext (name file_) = Returned ext ->
  environ w !! "AWS_BUCKET" = Some bucket ->
  put_fault (client w) bucket
    (letters_from (draws (rng w)) (cursor (rng w)) 8 +:+ "." +:+ ext) = None ->
  upload req w
  = (Returned (url_response
                 (letters_from (draws (rng w)) (cursor (rng w)) 8 +:+ "." +:+ ext)),
     store_object
       {| obj_bucket := bucket;
          obj_key := letters_from (draws (rng w)) (cursor (rng w)) 8 +:+ "." +:+ ext;
          obj_body := body file_; obj_content_type := type file_ |}
       (advance_rng 8 w)).
Proof. apply upload_run_ok_exact. Qed.

(** X2: a failure of the registry query is not caught: with a well-shaped
    header, the driver's error leaves the handler, and the world is as it
    was (nothing is written, no file name is drawn). *)
Theorem upload_registry_error (req : Request) (w : World)
    (h scheme cred : string) (e : Exception) :
  headers_getitem (headers req) "Authorization" = Returned h ->
  split " " h = [scheme; cred] ->
  conn_fault (conn w) = Some e ->
  upload req w = (Raised e, w).
Proof.
  intros Hh Hs Hf. apply upload_run_sound.
  now apply run_registry_down with h scheme cred.
Qed.

(** X3: without [AWS_BUCKET] in the environment, an authorized upload with a
    [data] part raises [KeyError]: the file name has been drawn by then,
    but nothing is written. *)
Theorem upload_missing_bucket (req : Request) (w : World) (file_ : File)
    (rest : list File) :
  authorized req w ->
  files req !! "data" = Some (file_ :: rest) ->
  environ w !! "AWS_BUCKET" = None ->
  upload req w = (Raised (KeyError "AWS_BUCKET"), advance_rng 8 w)
  /\ objects (client (snd (upload req w))) = objects (client w).
Proof.
  intros Hauth Hdata Henv.
  assert (H : upload req w = (Raised (KeyError "AWS_BUCKET"), advance_rng 8 w)).
  { apply upload_run_sound. now apply run_no_bucket with file_ rest. }
  split; [exact H|]. rewrite H. reflexivity.
Qed.

(** X4: an error of the storage write is not caught either: it leaves the
    handler instead of a response, and the log of written objects is as it
    was. *)
Theorem upload_put_error (req : Request) (w : World) (file_ : File)
    (rest : list File) (bucket ext : string) (err : Exception) :
  authorized req w ->
  files req !! "data" = Some (file_ :: rest) ->
  file_ext (name file_) = Returned ext ->
  environ w !! "AWS_BUCKET" = Some bucket ->
  put_fault (client w) bucket
    (letters_from (draws (rng w)) (cursor (rng w)) 8 +:+ "." +:+ ext) = Some err ->
  upload req w = (Raised err, advance_rng 8 w)
  /\ objects (client (snd (upload req w))) = objects (client w).
Proof.
  intros Hauth Hdata Hext Henv Hput.
  destruct (file_ext_pop _ _ Hext) as (e & Hpop & ->).
  assert (H : upload req w = (Raised err, advance_rng 8 w)).
  { apply upload_run_sound.
    apply run_put_failed with file_ rest
      (letters_from (draws (rng w)) (cursor (rng w)) 8) e bucket; try assumption.
    apply random_filename_exact. }
  split; [exact H|]. rewrite H. reflexivity.
Qed.

(** ** What an upload depends on *)

Lemma first_data_cases (req : Request) :
  (files req !! "data" = None /\ first_data req = None)
  \/ (files req !! "data" = Some [] /\ first_data req = Some None)
  \/ (exists f rest, files req !! "data" = Some (f :: rest)
                     /\ first_data req = Some (Some f)).
Proof.
  unfold first_data.
  destruct (files req !! "data") as [[|f rest]|]; eauto 6.
Qed.

(** X5: the outcome of an upload, and the world it leaves, depend on the
    request only through the second piece of the authorization header and
    the first [data] part: the scheme, the other headers, the further
    [data] parts and the other file fields are ignored. *)
Theorem upload_depends_on_credential_and_first_part (req1 req2 : Request)
    (w : World) (h1 h2 s1 s2 cred : string) :
  headers_getitem (headers req1) "Authorization" = Returned h1 ->
  split " " h1 = [s1; cred] ->
  headers_getitem (headers req2) "Authorization" = Returned h2 ->
  split " " h2 = [s2; cred] ->
  first_data req1 = first_data req2 ->
  upload req1 w = upload req2 w.
Proof.
  intros Hh1 Hs1 Hh2 Hs2 Hfd.
  assert (Hauth : authorized req1 w -> authorized req2 w).
  { intros (h & s & c & i & Hh & Hs & Hf & Hi). same_header.
    eexists _, _, _, _. repeat split; eauto. }
  assert (Hnone : files req1 !! "data" = None -> files req2 !! "data" = None).
  { intros H. unfold first_data in Hfd. rewrite H in Hfd.
    destruct (files req2 !! "data"); [discriminate | reflexivity]. }
  assert (Hnil : files req1 !! "data" = Some [] -> files req2 !! "data" = Some []).
  { intros H. unfold first_data in Hfd. rewrite H in Hfd.
    destruct (files req2 !! "data") as [[|f r]|]; try discriminate. reflexivity. }
  assert (Hcons : forall f r, files req1 !! "data" = Some (f :: r) ->
                              exists r', files req2 !! "data" = Some (f :: r')).
  { intros f r H. unfold first_data in Hfd. rewrite H in Hfd.
    destruct (files req2 !! "data") as [[|f' r']|]; try discriminate.
    injection Hfd as ->. now exists r'. }
  rewrite (surjective_pairing (upload req1 w)). symmetry.
  apply upload_run_sound.
  pose proof (upload_run_total req1 w) as Hrun.
  destruct Hrun; same_header; try congruence.
  - eapply run_registry_down; eauto.
  - eapply run_unknown; eauto.
  - apply run_no_data; auto.
  - apply run_empty_data; auto.
  - match goal with H : files req1 !! _ = Some _ |- _ =>
      destruct (Hcons _ _ H) as [r' Hr'] end.
    apply run_no_bucket with file_ r'; auto.
  - match goal with H : files req1 !! _ = Some _ |- _ =>
      destruct (Hcons _ _ H) as [r' Hr'] end.
    eapply run_put_failed; eauto.
  - match goal with H : files req1 !! _ = Some _ |- _ =>
      destruct (Hcons _ _ H) as [r' Hr'] end.
    eapply run_ok; eauto.
Qed.

Lemma authorized_same_conn (req : Request) (w1 w2 : World) :
  conn w1 = conn w2 -> authorized req w1 -> authorized req w2.
Proof.
  intros Hc (h & s & c & i & Hh & Hs & Hf & Hi).
  exists h, s, c, i. rewrite <- Hc. auto.
Qed.

(** X6: the handler never looks at what the bucket holds: whatever objects
    are stored, the outcome of an upload is the same.  In particular a key
    that is taken already is written again without notice. *)
Theorem upload_ignores_stored_objects (req : Request) (w : World)
    (os : list StoredObject) :
  fst (upload req (with_objects os w)) = fst (upload req w).
Proof.
  pose proof (upload_run_total req w) as Hrun.
  pose proof (random_filename_exact (with_objects os w)) as Hrf.
  cbn [rng with_objects] in Hrf.
  assert (Ha : authorized req w -> authorized req (with_objects os w))
    by (apply authorized_same_conn; reflexivity).
  destruct Hrun;
    match goal with
    | |- fst (upload _ ?w2) = _ => erewrite (upload_run_sound req w2); [reflexivity|]
    end.
  - now apply run_no_header.
  - eapply run_malformed; eauto.
  - eapply run_registry_down; eauto.
  - eapply run_unknown; eauto.
  - apply run_no_data; auto.
  - apply run_empty_data; auto.
  - eapply run_no_bucket; eauto.
  - match goal with H : random_filename w = _ |- _ =>
      rewrite random_filename_exact in H; injection H as <- end.
    eapply run_put_failed; eauto.
  - match goal with H : random_filename w = _ |- _ =>
      rewrite random_filename_exact in H; injection H as <- end.
    eapply run_ok; eauto.
Qed.

(** ** Retrieval, case by case *)

Lemma stream_to_client_output (c : S3Client) (o : StoredObject) :
  Forall (fun p => fst p <> 0) (chunking c) ->
  stream_to_client {| s3_response := output_of c o |} = Returned (obj_body o).
Proof. intros Hs. unfold output_of. now apply stream_to_client_whole. Qed.

Lemma image_view_healthy (item bucket : string) (w : World) :
  environ w !! "AWS_BUCKET" = Some bucket ->
  get_fault (client w) bucket item = None ->
  image_view item w
  = match List.find (same_object bucket item) (objects (client w)) with
    | Some o =>
        (Returned (StreamingHTTPResponse {| s3_response := output_of (client w) o |}
                     200 (obj_content_type o)), w)
    | None => (Returned ignore_404s, w)
    end.
Proof.
  intros Henv Hget.
  rewrite (image_view_get_object _ _ _ Henv).
  unfold get_object. rewrite Hget.
  destruct (List.find (same_object bucket item) (objects (client w))); reflexivity.
Qed.

(** X7: with the bucket configured and a backend that answers and
    delivers its reads in chunks none of which is empty, a retrieval
    serves the object written last under the requested key, with status
    200, the content type it was written with and exactly its bytes; when
    no object was ever written under that key, the answer is the 404
    response.  The key is taken as it is: no other key is looked at. *)
Theorem image_view_serves_latest (item bucket : string) (w : World) :
  environ w !! "AWS_BUCKET" = Some bucket ->
  get_fault (client w) bucket item = None ->
  Forall (fun p => fst p <> 0) (chunking (client w)) ->
  match List.find (same_object bucket item) (objects (client w)) with
  | Some o =>
      exists fn,
        image_view item w
        = (Returned (StreamingHTTPResponse fn 200 (obj_content_type o)), w)
        /\ stream_to_client fn = Returned (obj_body o)
        /\ obj_key o = item
  | None =>
      image_view item w
      = (Returned (HTTPResponse (TextBody "Not found.") 404
                     "text/plain; charset=utf-8"), w)
  end.
Proof.
  intros Henv Hget Hsizes.
  rewrite (image_view_healthy _ _ _ Henv Hget).
  destruct (List.find (same_object bucket item) (objects (client w))) as [o|] eqn:Hfind;
    [|reflexivity].
  eexists. split; [reflexivity|].
  split; [now apply stream_to_client_output|].
  apply find_some in Hfind as [_ Hsame].
  unfold same_object in Hsame.
  apply andb_prop in Hsame as [_ Hk]. now apply String.eqb_eq in Hk.
Qed.

(** X8: without [AWS_BUCKET] in the environment, every retrieval raises
    [KeyError]; it is not answered with the 404 response, and the backend
    is not asked. *)
Theorem image_view_missing_bucket (item : string) (w : World) :
  environ w !! "AWS_BUCKET" = None ->
  image_view item w = (Raised (KeyError "AWS_BUCKET"), w).
Proof.
  intros Henv.
  unfold image_view, try_except, bind, os_environ, dict_getitem.
  rewrite Henv. reflexivity.
Qed.

(** X9: a retrieval has three outcomes and no other: a streaming response with
    status 200 whose content type is the one the backend reported, the 404
    response that unmatched routes get as well, or an exception that is
    not a [ClientError].  It never changes the world. *)
Theorem image_view_outcomes (item : string) (w : World) :
  snd (image_view item w) = w
  /\ match fst (image_view item w) with
     | Returned resp =>
         resp = ignore_404s
         \/ exists get_res,
              resp = StreamingHTTPResponse {| s3_response := get_res |} 200
                       (ContentType get_res)
     | Raised e => forall code, e <> ClientError code
     end.
Proof.
  destruct (environ w !! "AWS_BUCKET") as [bucket|] eqn:Henv.
  - rewrite (image_view_get_object _ _ _ Henv).
    unfold get_object.
    destruct (get_fault (client w) bucket item) as [e|].
    + destruct e; simpl; split; try reflexivity; try (now left); discriminate.
    + destruct (List.find (same_object bucket item) (objects (client w))) as [o|];
        simpl; split; try reflexivity;
        [right; now exists (output_of (client w) o) | now left].
  - rewrite (image_view_missing_bucket _ _ Henv). simpl.
    split; [reflexivity | discriminate].
Qed.

(** ** Uploads and the keys they do not write *)

Lemma find_store_other (bucket item : string) (o : StoredObject) (os : list StoredObject) :
  obj_key o <> item ->
  List.find (same_object bucket item) (o :: os) = List.find (same_object bucket item) os.
Proof.
  intros Hne. cbn [List.find]. unfold same_object at 1.
  apply String.eqb_neq in Hne. rewrite Hne, andb_false_r. reflexivity.
Qed.

(** X10: a successful upload changes what is served under its own key only:
    the answer to the retrieval of any other key is what it was before. *)
Theorem upload_leaves_other_keys (req : Request) (w w' : World) (key item : string) :
  upload req w = (Returned (url_response key), w') ->
  item <> key ->
  fst (image_view item w') = fst (image_view item w).
Proof.
  intros Hup Hne.
  destruct (upload_200_inv _ _ _ _ Hup eq_refl)
    as (f & r & p & e & b & _ & _ & _ & _ & _ & Henv & _ & Hresp & Hw).
  apply url_response_inj in Hresp. subst key.
  assert (Henv' : environ w' !! "AWS_BUCKET" = Some b) by (subst w'; exact Henv).
  rewrite (image_view_get_object _ _ _ Henv), (image_view_get_object _ _ _ Henv').
  subst w'. unfold get_object.
  cbn [client store_object advance_rng get_fault objects chunking].
  rewrite find_store_other by (cbn [obj_key]; congruence).
  destruct (get_fault (client w) b item) as [err|]; [destruct err; reflexivity|].
  destruct (List.find (same_object b item) (objects (client w))); reflexivity.
Qed.


(** ** The extension and the key *)

Lemma ascii_lower_char_dot (c : ascii) :
  Ascii.eqb (ascii_lower_char c) "." = Ascii.eqb c ".".
Proof. destruct c as [[] [] [] [] [] [] [] []]; reflexivity. Qed.

Lemma ascii_lower_char_idempotent (c : ascii) :
  ascii_lower_char (ascii_lower_char c) = ascii_lower_char c.
Proof. destruct c as [[] [] [] [] [] [] [] []]; reflexivity. Qed.

Lemma ascii_lower_char_ascii (c : ascii) :
  (N_of_ascii (ascii_lower_char c) <? 128)%N = (N_of_ascii c <? 128)%N.
Proof. destruct c as [[] [] [] [] [] [] [] []]; reflexivity. Qed.

Lemma ascii_lower_occurrences_dot (s : string) :
  occurrences "." (ascii_lower s) = occurrences "." s.
Proof.
  induction s as [|c r IH]; [reflexivity|].
  cbn [ascii_lower occurrences]. now rewrite ascii_lower_char_dot, IH.
Qed.

Lemma ascii_lower_idempotent (s : string) : ascii_lower (ascii_lower s) = ascii_lower s.
Proof.
  induction s as [|c r IH]; [reflexivity|].
  cbn [ascii_lower]. now rewrite ascii_lower_char_idempotent, IH.
Qed.

Lemma ascii_lower_length (s : string) :
  String.length (ascii_lower s) = String.length s.
Proof.
  induction s as [|c r IH]; [reflexivity|].
  cbn [ascii_lower String.length]. now rewrite IH.
Qed.

Lemma ascii_lower_is_ascii (s : string) : is_ascii (ascii_lower s) = is_ascii s.
Proof.
  induction s as [|c r IH]; [reflexivity|].
  cbn [ascii_lower is_ascii]. now rewrite ascii_lower_char_ascii, IH.
Qed.

(** On ASCII text, lower-casing adds no ".", changes nothing when done
    again, and keeps the length. *)
Lemma lower_of_ascii (s : string) :
  is_ascii s = true ->
  occurrences "." (lower s) = occurrences "." s
  /\ lower (lower s) = lower s
  /\ String.length (lower s) = String.length s.
Proof.
  intros Hs. rewrite (lower_ascii s Hs).
  rewrite lower_ascii by now rewrite ascii_lower_is_ascii.
  now rewrite ascii_lower_occurrences_dot, ascii_lower_idempotent, ascii_lower_length.
Qed.

(** No piece of a split contains the separator, none is longer than the
    string, and the pieces of ASCII text are ASCII. *)
Lemma split_pieces (sep : ascii) (s : string) :
  Forall (fun t => occurrences sep t = 0
                   /\ String.length t <= String.length s
                   /\ (is_ascii s = true -> is_ascii t = true))
    (split sep s).
Proof.
  induction s as [|c r IH]; cbn [split].
  - constructor; [|constructor]. split; [|split]; auto.
  - destruct (Ascii.eqb c sep) eqn:Hc.
    + constructor.
      * split; [|split]; [reflexivity | cbn; lia | reflexivity].
      * eapply Forall_impl; [exact IH|]. cbn. intros t (? & ? & Ha).
        split; [|split]; [assumption | lia |].
        intros Hs. apply andb_prop in Hs as [_ Hr]. auto.
    + destruct (split sep r) as [|t ts].
      * constructor; [|constructor].
        split; [|split]; [cbn; now rewrite Hc | cbn; lia |].
        cbn. intros Hs. apply andb_prop in Hs as [-> _]. reflexivity.
      * inversion IH as [|? ? (Ht & Hl & Ha) Hts]; subst.
        constructor.
        -- split; [|split]; [cbn; now rewrite Hc | cbn; lia |].
           cbn. intros Hs. apply andb_prop in Hs as [-> Hr]. cbn. auto.
        -- eapply Forall_impl; [exact Hts|]. cbn. intros t' (? & ? & Ha').
           split; [|split]; [assumption | lia |].
           intros Hs. apply andb_prop in Hs as [_ Hr]. auto.
Qed.

Lemma pop_In {A : Type} (l : list A) (x : A) : pop l = Returned x -> In x l.
Proof.
  induction l as [|y r IH]; [discriminate|].
  destruct r as [|z r'].
  - cbn. intros H. injection H as ->. now left.
  - rewrite pop_cons by discriminate. intros H. right. now apply IH.
Qed.

(** X12: taking the extension never fails, whatever the name: it is the
    lower-cased last piece of the name cut at ".", a piece that has no "."
    in it and is no longer than the name.  For an ASCII name the extension
    itself has no "." in it, is unchanged by lower-casing again, and is no
    longer than the name. *)
Theorem file_ext_dot_free (n : string) :
  exists e,
    pop (split "." n) = Returned e
    /\ file_ext n = Returned (lower e)
    /\ occurrences "." e = 0
    /\ String.length e <= String.length n
    /\ (is_ascii n = true ->
        occurrences "." (lower e) = 0
        /\ lower (lower e) = lower e
        /\ String.length (lower e) <= String.length n).
Proof.
  destruct (file_ext_returns n) as (e & Hext & Hpop).
  exists e. split; [exact Hpop|]. split; [exact Hext|].
  pose proof (split_pieces "." n) as Hall.
  rewrite Forall_forall in Hall.
  destruct (Hall e) as (Hocc & Hlen & Hascii).
  { apply list_elem_of_In. now apply pop_In. }
  split; [exact Hocc|]. split; [exact Hlen|].
  intros Hn. destruct (lower_of_ascii e (Hascii Hn)) as (Ho & Hi & Hl).
  split; [congruence|]. split; [exact Hi | lia].
Qed.

Lemma lowercase_letters_no_dot (p : string) :
  all_lowercase_letters p = true -> occurrences "." p = 0.
Proof.
  induction p as [|c r IH]; [reflexivity|].
  cbn [all_lowercase_letters occurrences]. intros H.
  apply andb_prop in H as [Hc Hr]. rewrite (IH Hr).
  destruct c as [[] [] [] [] [] [] [] []]; try discriminate Hc; reflexivity.
Qed.

Lemma split_app_no_sep (sep : ascii) (pre suf : string) :
  occurrences sep pre = 0 ->
  split sep (pre +:+ String sep suf) = pre :: split sep suf.
Proof.
  induction pre as [|c r IH]; simpl.
  - now rewrite Ascii.eqb_refl.
  - destruct (Ascii.eqb c sep); [discriminate|].
    intros H. now rewrite (IH H).
Qed.

(** X13: the key of a successful upload of a file with an ASCII name has
    exactly one ".": cutting it there gives back the eight-letter file
    name and the extension, and the extension of the key is the extension
    of the uploaded name. *)
Theorem upload_key_keeps_extension (req : Request) (w w' : World) (resp : Response)
    (file_ : File) (rest : list File) :
  upload req w = (Returned resp, w') ->
  status_of resp = 200 ->
  files req !! "data" = Some (file_ :: rest) ->
  is_ascii (name file_) = true ->
  exists key filename ext,
    resp = url_response key
    /\ file_ext (name file_) = Returned ext
    /\ split "." key = [filename; ext]
    /\ String.length filename = 8
    /\ file_ext key = Returned ext.
Proof.
  intros Hup Hst Hdata Hascii.
  destruct (upload_200_inv _ _ _ _ Hup Hst)
    as (f & r & p & e & b & _ & Hd & Hl & Hlow & Hpop & _ & _ & Hresp & _).
  rewrite Hdata in Hd. injection Hd as <- <-.
  destruct (file_ext_dot_free (name file_)) as (e' & Hpop' & Hext & _ & _ & Hfacts).
  assert (e' = e) by congruence. subst e'.
  destruct (Hfacts Hascii) as (Hocc & Hfix & _).
  assert (Hsplit : split "." (p +:+ "." +:+ lower e) = [p; lower e]).
  { change (p +:+ "." +:+ lower e) with (p +:+ String "." (lower e)).
    rewrite split_app_no_sep by now apply lowercase_letters_no_dot.
    now rewrite (split_no_sep _ _ Hocc). }
  exists (p +:+ "." +:+ lower e), p, (lower e).
  repeat split; try assumption.
  unfold file_ext. rewrite Hsplit. cbn [pop]. now rewrite Hfix.
Qed.

(** ** Which file names can be drawn *)

Lemma nth_letter_index (c : ascii) :
  is_lowercase_letter c = true -> nth_letter (letter_index c mod 26) = c.
Proof. destruct c as [[] [] [] [] [] [] [] []]; try discriminate; reflexivity. Qed.

Lemma letters_from_spell (p : string) (d : nat -> nat) (c : nat) :
  (forall i ch, String.get i p = Some ch -> nth_letter (d (c + i) mod 26) = ch) ->
  letters_from d c (String.length p) = p.
Proof.
  revert c. induction p as [|a r IH]; intros c H; [reflexivity|].
  cbn [String.length letters_from]. f_equal.
  - specialize (H 0 a eq_refl). now rewrite Nat.add_0_r in H.
  - apply IH. intros i ch Hget.
    specialize (H (S i) ch Hget). now rewrite Nat.add_succ_r in H.
Qed.

Lemma get_lowercase (p : string) (i : nat) (ch : ascii) :
  all_lowercase_letters p = true -> String.get i p = Some ch ->
  is_lowercase_letter ch = true.
Proof.
  revert i. induction p as [|a r IH]; intros i Hall Hget; [discriminate|].
  cbn [all_lowercase_letters] in Hall. apply andb_prop in Hall as [Ha Hr].
  destruct i as [|i]; cbn in Hget.
  - congruence.
  - eauto.
Qed.

(** X14: every string of eight lowercase letters is the file name of some
    upload: the generator that draws the positions of its letters yields
    it.  Together with the shape of the key, the file names are exactly
    the 26^8 strings of eight lowercase letters. *)
Theorem every_filename_can_be_drawn (p : string) (w : World) :
  String.length p = 8 ->
  all_lowercase_letters p = true ->
  fst (random_filename (with_rng {| draws := draws_for p; cursor := 0 |} w))
  = Returned p.
Proof.
  intros Hlen Hall.
  rewrite random_filename_exact. cbn [fst rng with_rng draws cursor].
  rewrite <- Hlen. f_equal. apply letters_from_spell.
  intros i ch Hget. cbn [Nat.add]. unfold draws_for. rewrite Hget.
  apply nth_letter_index. eapply get_lowercase; eassumption.
Qed.

(** ** Streams that fail, and streams cut differently *)

(** X15: when the body fails in the middle of a read, everything it yielded
    before has been written to the response already, in order, and the
    error leaves the streaming function. *)
Theorem stream_error_after_chunks (self : SanicS3Stream) (written : list bytes)
    (e : Exception) :
  stream_error (Body (s3_response self)) = Some e ->
  SanicS3Stream_call self written
  = (Raised e, written ++ map fst (chunks (Body (s3_response self))))
  /\ stream_to_client self = Raised e.
Proof.
  intros Herr.
  assert (Hcall : forall ws, SanicS3Stream_call self ws
            = (Raised e, ws ++ map fst (chunks (Body (s3_response self))))).
  { intros ws. unfold SanicS3Stream_call. rewrite Herr, fold_left_write. reflexivity. }
  split; [apply Hcall|].
  unfold stream_to_client. rewrite Hcall. reflexivity.
Qed.

(** X16: what the client receives does not depend on how the backend
    cuts the body into chunks, nor on the end-of-chunk flags, as long as
    no chunk is empty: two reads that end without error, have no empty
    chunk and carry the same bytes stream the same bytes. *)
Theorem stream_independent_of_chunking (fn1 fn2 : SanicS3Stream) :
  stream_error (Body (s3_response fn1)) = None ->
  stream_error (Body (s3_response fn2)) = None ->
  Forall (fun data => data <> []) (map fst (chunks (Body (s3_response fn1)))) ->
  Forall (fun data => data <> []) (map fst (chunks (Body (s3_response fn2)))) ->
  concat (map fst (chunks (Body (s3_response fn1))))
  = concat (map fst (chunks (Body (s3_response fn2)))) ->
  stream_to_client fn1 = stream_to_client fn2.
Proof.
  intros H1 H2 Hn1 Hn2 Heq.
  unfold stream_to_client, SanicS3Stream_call.
  rewrite H1, H2, !fold_left_write. cbn [app].
  now rewrite !received_nonempty, Heq by assumption.
Qed.

(** * Properties of the start-up *)

(** ** The three creation helpers *)

Lemma keeps_schema_refl (s : RethinkServer) : keeps_schema s s.
Proof.
  intros d tables Hd. exists tables. split; [exact Hd|].
  intros t indexes Ht. exists indexes. split; [exact Ht | reflexivity].
Qed.

Lemma keeps_schema_trans (s1 s2 s3 : RethinkServer) :
  keeps_schema s1 s2 -> keeps_schema s2 s3 -> keeps_schema s1 s3.
Proof.
  intros H12 H23 d tables Hd.
  destruct (H12 d tables Hd) as (tables2 & Hd2 & Ht2).
  destruct (H23 d tables2 Hd2) as (tables3 & Hd3 & Ht3).
  exists tables3. split; [exact Hd3|].
  intros t indexes Ht.
  destruct (Ht2 t indexes Ht) as (i2 & Hi2 & Hsub2).
  destruct (Ht3 t i2 Hi2) as (i3 & Hi3 & Hsub3).
  exists i3. split; [exact Hi3 | set_solver].
Qed.

Lemma db_create_keeps (name : string) (c : Connection) (s : RethinkServer) :
  keeps_schema s (snd (db_create name c s)).
Proof.
  unfold db_create.
  destruct (databases s !! name) eqn:Hn; [apply keeps_schema_refl|].
  intros d tables Hd. cbn [snd with_databases databases].
  exists tables. split.
  - rewrite lookup_insert_ne; [exact Hd | congruence].
  - intros t indexes Ht. exists indexes. split; [exact Ht | reflexivity].
Qed.

Lemma table_create_keeps (name : string) (c : Connection) (s : RethinkServer) :
  keeps_schema s (snd (table_create name c s)).
Proof.
  unfold table_create.
  destruct (databases s !! db c) as [tables0|] eqn:Hdb; [|apply keeps_schema_refl].
  destruct (tables0 !! name) eqn:Hn; [apply keeps_schema_refl|].
  intros d tables Hd. cbn [snd with_databases databases].
  destruct (decide (d = db c)) as [->|Hne].
  - rewrite lookup_insert_eq. eexists. split; [reflexivity|].
    assert (tables = tables0) by congruence. subst tables0.
    intros t indexes Ht. exists indexes. split; [|reflexivity].
    rewrite lookup_insert_ne; [exact Ht | congruence].
  - rewrite lookup_insert_ne by congruence.
    exists tables. split; [exact Hd|].
    intros t indexes Ht. exists indexes. split; [exact Ht | reflexivity].
Qed.

Lemma index_create_keeps (table index : string) (c : Connection) (s : RethinkServer) :
  keeps_schema s (snd (index_create table index c s)).
Proof.
  unfold index_create.
  destruct (databases s !! db c) as [tables0|] eqn:Hdb; [|apply keeps_schema_refl].
  destruct (tables0 !! table) as [indexes0|] eqn:Hn; [|apply keeps_schema_refl].
  destruct (decide (index ∈ indexes0)); [apply keeps_schema_refl|].
  intros d tables Hd. cbn [snd with_databases databases].
  destruct (decide (d = db c)) as [->|Hne].
  - rewrite lookup_insert_eq. eexists. split; [reflexivity|].
    assert (tables = tables0) by congruence. subst tables0.
    intros t indexes Ht.
    destruct (decide (t = table)) as [->|Hnt].
    + rewrite lookup_insert_eq. eexists. split; [reflexivity|].
      assert (indexes = indexes0) by congruence. set_solver.
    + rewrite lookup_insert_ne by congruence.
      exists indexes. split; [exact Ht | reflexivity].
  - rewrite lookup_insert_ne by congruence.
    exists tables. split; [exact Hd|].
    intros t indexes Ht. exists indexes. split; [exact Ht | reflexivity].
Qed.

(** The run of a swallowed query: it returns, and leaves the process as
    [after_query] says. *)
Lemma except_pass_run (query : Connection -> RethinkServer -> Outcome unit * RethinkServer)
    (b : Boot) :
  except_pass (run query) b = (Returned tt, after_query query b).
Proof.
  unfold except_pass, run, after_query.
  destruct (app_conn (instance b)) as [c|]; [|reflexivity].
  destruct (query_fault b (query_clock b)); [reflexivity|].
  destruct (query c (server b)) as [[u|e] s']; reflexivity.
Qed.

Lemma after_query_fields
    (query : Connection -> RethinkServer -> Outcome unit * RethinkServer) (b : Boot) :
  boot_environ (after_query query b) = boot_environ b
  /\ client_fault (after_query query b) = client_fault b
  /\ query_fault (after_query query b) = query_fault b
  /\ instance (after_query query b) = instance b.
Proof.
  unfold after_query.
  destruct (app_conn (instance b)); [|now repeat split].
  destruct (query_fault b (query_clock b)); now repeat split.
Qed.

Lemma after_query_keeps
    (query : Connection -> RethinkServer -> Outcome unit * RethinkServer) (b : Boot) :
  (forall c s, keeps_schema s (snd (query c s))) ->
  keeps_schema (server b) (server (after_query query b)).
Proof.
  intros Hq. unfold after_query.
  destruct (app_conn (instance b)) as [c|]; [|apply keeps_schema_refl].
  destruct (query_fault b (query_clock b)); [apply keeps_schema_refl|].
  apply Hq.
Qed.

Lemma except_pass_run_keeps
    (query : Connection -> RethinkServer -> Outcome unit * RethinkServer) (b : Boot) :
  (forall c s, keeps_schema s (snd (query c s))) ->
  fst (except_pass (run query) b) = Returned tt
  /\ keeps_schema (server b) (server (snd (except_pass (run query) b)))
  /\ instance (snd (except_pass (run query) b)) = instance b.
Proof.
  intros Hq. rewrite except_pass_run. cbn [fst snd].
  split; [reflexivity|]. split; [now apply after_query_keeps|].
  apply after_query_fields.
Qed.

(** X17: none of the three creation helpers ever raises, whatever the server
    answers and even without a connection; none of them removes a
    database, a table or an index, and none touches the application
    object. *)
Theorem create_if_not_exists_never_raises (b : Boot) (name table index : string) :
  (fst (create_db_if_not_exists name b) = Returned tt
   /\ keeps_schema (server b) (server (snd (create_db_if_not_exists name b)))
   /\ instance (snd (create_db_if_not_exists name b)) = instance b)
  /\ (fst (create_table_if_not_exists table b) = Returned tt
      /\ keeps_schema (server b) (server (snd (create_table_if_not_exists table b)))
      /\ instance (snd (create_table_if_not_exists table b)) = instance b)
  /\ (fst (create_index_if_not_exists table index b) = Returned tt
      /\ keeps_schema (server b)
           (server (snd (create_index_if_not_exists table index b)))
      /\ instance (snd (create_index_if_not_exists table index b)) = instance b).
Proof.
  unfold create_db_if_not_exists, create_table_if_not_exists,
    create_index_if_not_exists.
  repeat split;
    try (apply except_pass_run_keeps;
         auto using db_create_keeps, table_create_keeps, index_create_keeps).
Qed.

Lemma db_create_twice (name : string) (c c' : Connection) (s : RethinkServer) :
  snd (db_create name c' (snd (db_create name c s))) = snd (db_create name c s).
Proof.
  unfold db_create at 2 3.
  destruct (databases s !! name) eqn:Hn; cbn [snd].
  - unfold db_create. now rewrite Hn.
  - unfold db_create. cbn [with_databases databases].
    now rewrite lookup_insert_eq.
Qed.

Lemma table_create_twice (name : string) (c : Connection) (s : RethinkServer) :
  snd (table_create name c (snd (table_create name c s))) = snd (table_create name c s).
Proof.
  unfold table_create at 2 3.
  destruct (databases s !! db c) as [tables|] eqn:Hd; cbn [snd].
  - destruct (tables !! name) eqn:Hn; cbn [snd].
    + unfold table_create. now rewrite Hd, Hn.
    + unfold table_create. cbn [with_databases databases].
      now rewrite !lookup_insert_eq.
  - unfold table_create. now rewrite Hd.
Qed.

Lemma index_create_twice (table index : string) (c : Connection) (s : RethinkServer) :
  snd (index_create table index c (snd (index_create table index c s)))
  = snd (index_create table index c s).
Proof.
  unfold index_create at 2 3.
  destruct (databases s !! db c) as [tables|] eqn:Hd; cbn [snd].
  - destruct (tables !! table) as [indexes|] eqn:Hn; cbn [snd].
    + destruct (decide (index ∈ indexes)) as [Hin|Hnin]; cbn [snd].
      * unfold index_create. rewrite Hd, Hn.
        destruct (decide (index ∈ indexes)); [reflexivity | contradiction].
      * unfold index_create. cbn [with_databases databases].
        rewrite !lookup_insert_eq.
        destruct (decide (index ∈ {[index]} ∪ indexes)) as [|Hno];
          [reflexivity | exfalso; apply Hno; set_solver].
    + unfold index_create. now rewrite Hd, Hn.
  - unfold index_create. now rewrite Hd.
Qed.

Lemma after_query_twice
    (query : Connection -> RethinkServer -> Outcome unit * RethinkServer) (b : Boot) :
  (forall c s, snd (query c (snd (query c s))) = snd (query c s)) ->
  query_fault b (query_clock b) = None ->
  server (after_query query (after_query query b)) = server (after_query query b).
Proof.
  intros Htwice Hfirst.
  unfold after_query at 2 3.
  destruct (app_conn (instance b)) as [c|] eqn:Hc.
  - rewrite Hfirst. unfold after_query.
    cbn [instance tick with_server query_fault query_clock server]. rewrite Hc.
    destruct (query_fault b (S (query_clock b))); cbn [server tick with_server];
      [reflexivity | apply Htwice].
  - unfold after_query. now rewrite Hc.
Qed.

(** X18: each creation helper is idempotent once its query has been carried
    out: when the first call's query reaches the server, a second call
    leaves the server as the first call left it, because the second
    attempt fails there, or is lost, and the failure is swallowed.  (When
    the first call's query is lost, a second call may still create what
    the first did not.) *)
Theorem create_if_not_exists_idempotent (b : Boot) (name table index : string) :
  query_fault b (query_clock b) = None ->
  server (snd (create_db_if_not_exists name (snd (create_db_if_not_exists name b))))
  = server (snd (create_db_if_not_exists name b))
  /\ server (snd (create_table_if_not_exists table
                    (snd (create_table_if_not_exists table b))))
     = server (snd (create_table_if_not_exists table b))
  /\ server (snd (create_index_if_not_exists table index
                    (snd (create_index_if_not_exists table index b))))
     = server (snd (create_index_if_not_exists table index b)).
Proof.
  intros Hfirst.
  unfold create_db_if_not_exists, create_table_if_not_exists,
    create_index_if_not_exists.
  rewrite !except_pass_run. cbn [snd].
  repeat split; apply after_query_twice; try assumption; intros c s.
  - apply db_create_twice.
  - apply table_create_twice.
  - apply index_create_twice.
Qed.

(** ** The listener *)

Lemma bindB_returned {A C : Type} (m : B A) (k : A -> B C) (b b' : Boot) (a : A) :
  m b = (Returned a, b') -> bindB m k b = k a b'.
Proof. intros H0. unfold bindB. now rewrite H0. Qed.

Lemma startup_connected (b : Boot) :
  connect_fault (server b)
    (environ_get_or (boot_environ b) "RETHINKDB_HOSTNAME" "127.0.0.1")
    (environ_get_or (boot_environ b) "RETHINKDB_USER" "admin")
    (environ_get_or (boot_environ b) "RETHINKDB_PASSWORD" "") = None ->
  _connect_rethinkdb_and_s3 b = create_s3_client (after_schema_steps b).
Proof.
  intros Hc.
  unfold _connect_rethinkdb_and_s3, after_schema_steps.
  erewrite bindB_returned by (unfold r_connect; rewrite Hc; reflexivity).
  unfold create_db_if_not_exists, create_table_if_not_exists.
  erewrite bindB_returned by apply except_pass_run.
  fold (with_conn {| db := "test" |} b).
  erewrite bindB_returned.
  2:{ unfold conn_use.
      destruct (after_query_fields (db_create "magiccap")
                  (with_conn {| db := "test" |} b)) as (_ & _ & _ & Hi).
      assert (Hsome : app_conn (instance (after_query (db_create "magiccap")
                                            (with_conn {| db := "test" |} b)))
                      = Some {| db := "test" |}) by now rewrite Hi.
      rewrite Hsome. reflexivity. }
  fold (with_conn {| db := "magiccap" |}
          (after_query (db_create "magiccap") (with_conn {| db := "test" |} b))).
  erewrite bindB_returned by apply except_pass_run.
  erewrite bindB_returned by apply except_pass_run.
  reflexivity.
Qed.

Lemma after_schema_steps_fields (b : Boot) :
  boot_environ (after_schema_steps b) = boot_environ b
  /\ client_fault (after_schema_steps b) = client_fault b
  /\ query_fault (after_schema_steps b) = query_fault b
  /\ instance (after_schema_steps b)
     = {| app_conn := Some {| db := "magiccap" |};
          app_client := app_client (instance b) |}.
Proof.
  unfold after_schema_steps.
  set (b1 := with_conn {| db := "test" |} b).
  set (b2 := after_query (db_create "magiccap") b1).
  set (b3 := with_conn {| db := "magiccap" |} b2).
  set (b4 := after_query (table_create "uploads") b3).
  destruct (after_query_fields (table_create "installs") b4) as (E5 & C5 & Q5 & I5).
  destruct (after_query_fields (table_create "uploads") b3) as (E4 & C4 & Q4 & I4).
  destruct (after_query_fields (db_create "magiccap") b1) as (E2 & C2 & Q2 & I2).
  fold b2 in E2, C2, Q2, I2. fold b4 in E4, C4, Q4, I4.
  rewrite E5, C5, Q5, I5, E4, C4, Q4, I4.
  unfold b3. cbn [with_conn boot_environ client_fault query_fault instance].
  rewrite E2, C2, Q2, I2. unfold b1. cbn. now repeat split.
Qed.

Lemma after_schema_steps_keeps (b : Boot) :
  keeps_schema (server b) (server (after_schema_steps b)).
Proof.
  unfold after_schema_steps.
  eapply keeps_schema_trans;
    [|apply after_query_keeps; intros; apply table_create_keeps].
  eapply keeps_schema_trans;
    [|apply after_query_keeps; intros; apply table_create_keeps].
  cbn [with_conn server].
  apply (after_query_keeps (db_create "magiccap") (with_conn {| db := "test" |} b)).
  intros. apply db_create_keeps.
Qed.

Lemma after_schema_steps_answered (b : Boot) :
  (forall t, query_fault b t = None) ->
  server (after_schema_steps b) = after_creation_queries (server b).
Proof.
  intros Hq.
  unfold after_schema_steps, after_creation_queries, after_query.
  cbn [instance app_conn with_conn tick with_server query_fault query_clock server].
  rewrite !Hq.
  cbn [instance app_conn with_conn tick with_server query_fault query_clock server].
  rewrite !Hq.
  cbn [instance app_conn with_conn tick with_server query_fault query_clock server].
  rewrite !Hq. reflexivity.
Qed.

(** X19: when the server refuses the connection, the listener raises that
    error and has done nothing: no query was run and no client was made.
    Host, user and password come from the environment, or are
    "127.0.0.1", "admin" and the empty password. *)
Theorem startup_connect_failure (b : Boot) (e : Exception) :
  connect_fault (server b)
    (environ_get_or (boot_environ b) "RETHINKDB_HOSTNAME" "127.0.0.1")
    (environ_get_or (boot_environ b) "RETHINKDB_USER" "admin")
    (environ_get_or (boot_environ b) "RETHINKDB_PASSWORD" "") = Some e ->
  _connect_rethinkdb_and_s3 b = (Raised e, b).
Proof.
  intros Hc. unfold _connect_rethinkdb_and_s3, r_connect.
  unfold bindB at 1. now rewrite Hc.
Qed.

(** X20: once connected, the listener does not stop at a failing creation
    query: whatever the server answers to them, it goes on to create the
    S3 client, and what it returns is what that creation returns: it
    returns normally, with the client made from the environment, when the
    client can be created, and raises the error of that creation
    otherwise.  Either way the connection uses the database "magiccap",
    and no database, table or index is lost on the way. *)
Theorem startup_survives_schema_errors (b : Boot) :
  connect_fault (server b)
    (environ_get_or (boot_environ b) "RETHINKDB_HOSTNAME" "127.0.0.1")
    (environ_get_or (boot_environ b) "RETHINKDB_USER" "admin")
    (environ_get_or (boot_environ b) "RETHINKDB_PASSWORD" "") = None ->
  fst (_connect_rethinkdb_and_s3 b)
  = match client_fault b (s3_kwargs (boot_environ b)) with
    | Some e => Raised e
    | None => Returned tt
    end
  /\ instance (snd (_connect_rethinkdb_and_s3 b))
     = {| app_conn := Some {| db := "magiccap" |};
          app_client :=
            match client_fault b (s3_kwargs (boot_environ b)) with
            | Some _ => app_client (instance b)
            | None => Some (s3_kwargs (boot_environ b))
            end |}
  /\ keeps_schema (server b) (server (snd (_connect_rethinkdb_and_s3 b))).
Proof.
  intros Hc.
  rewrite (startup_connected b Hc). unfold create_s3_client.
  destruct (after_schema_steps_fields b) as (He & Hcf & _ & Hi).
  pose proof (after_schema_steps_keeps b) as Hk.
  rewrite He, Hcf.
  destruct (client_fault b (s3_kwargs (boot_environ b))); cbn [fst snd instance server].
  - now rewrite Hi.
  - rewrite Hi. cbn [app_conn]. now repeat split.
Qed.

Lemma after_creation_queries_schema (s : RethinkServer) :
  exists tables,
    databases (after_creation_queries s) !! "magiccap" = Some tables
    /\ is_Some (tables !! "uploads")
    /\ is_Some (tables !! "installs").
Proof.
  assert (H1 : exists t1, databases (snd (db_create "magiccap" {| db := "test" |} s))
                          !! "magiccap" = Some t1).
  { unfold db_create.
    destruct (databases s !! "magiccap") as [t|] eqn:Hd; cbn [snd].
    - eauto.
    - cbn [with_databases databases]. rewrite lookup_insert_eq. eauto. }
  destruct H1 as (t1 & Hd1).
  set (s1 := snd (db_create "magiccap" {| db := "test" |} s)) in *.
  assert (H2 : exists t2, databases (snd (table_create "uploads" {| db := "magiccap" |} s1))
                          !! "magiccap" = Some t2
               /\ is_Some (t2 !! "uploads")).
  { unfold table_create. cbn [db]. rewrite Hd1.
    destruct (t1 !! "uploads") eqn:Hu; cbn [snd].
    - exists t1. rewrite Hu. eauto.
    - cbn [with_databases databases]. rewrite lookup_insert_eq.
      eexists. split; [reflexivity|]. rewrite lookup_insert_eq. eauto. }
  destruct H2 as (t2 & Hd2 & Hu2).
  set (s2 := snd (table_create "uploads" {| db := "magiccap" |} s1)) in *.
  unfold after_creation_queries. fold s1. fold s2.
  unfold table_create. cbn [db]. rewrite Hd2.
  destruct (t2 !! "installs") eqn:Hi; cbn [snd].
  - exists t2. rewrite Hi. eauto.
  - cbn [with_databases databases]. rewrite lookup_insert_eq.
    eexists. split; [reflexivity|].
    rewrite lookup_insert_eq, lookup_insert_ne by discriminate. eauto.
Qed.

Lemma create_s3_client_server (b : Boot) :
  server (snd (create_s3_client b)) = server b
  /\ boot_environ (snd (create_s3_client b)) = boot_environ b
  /\ query_fault (snd (create_s3_client b)) = query_fault b.
Proof.
  unfold create_s3_client.
  destruct (client_fault b (s3_kwargs (boot_environ b))); now repeat split.
Qed.

(** X21: once connected to a server that answers the creation queries, the
    listener leaves the database "magiccap" with the tables "uploads" and
    "installs", whether they were there before or not, and whether or not
    the S3 client could be created afterwards. *)
Theorem startup_establishes_schema (b : Boot) :
  connect_fault (server b)
    (environ_get_or (boot_environ b) "RETHINKDB_HOSTNAME" "127.0.0.1")
    (environ_get_or (boot_environ b) "RETHINKDB_USER" "admin")
    (environ_get_or (boot_environ b) "RETHINKDB_PASSWORD" "") = None ->
  (forall t, query_fault b t = None) ->
  exists tables,
    databases (server (snd (_connect_rethinkdb_and_s3 b))) !! "magiccap" = Some tables
    /\ is_Some (tables !! "uploads")
    /\ is_Some (tables !! "installs").
Proof.
  intros Hc Hq.
  rewrite (startup_connected b Hc).
  destruct (create_s3_client_server (after_schema_steps b)) as (-> & _ & _).
  rewrite (after_schema_steps_answered b Hq).
  apply after_creation_queries_schema.
Qed.

Lemma db_create_present (name : string) (c : Connection) (s : RethinkServer) :
  is_Some (databases s !! name) -> snd (db_create name c s) = s.
Proof. intros [t Ht]. unfold db_create. now rewrite Ht. Qed.

Lemma table_create_present (name : string) (c : Connection) (s : RethinkServer)
    (tables : gmap string (gset string)) :
  databases s !! db c = Some tables -> is_Some (tables !! name) ->
  snd (table_create name c s) = s.
Proof. intros Hd [i Hi]. unfold table_create. now rewrite Hd, Hi. Qed.

Lemma after_creation_queries_connect (s : RethinkServer) :
  connect_fault (after_creation_queries s) = connect_fault s.
Proof.
  unfold after_creation_queries, table_create, db_create.
  repeat match goal with
  | |- context [match ?x with _ => _ end] => destruct x; cbn
  end; reflexivity.
Qed.

(** X22: starting a second time against the same server changes nothing on
    it: with the schema in place, each creation query fails and the
    failure is swallowed. *)
Theorem startup_idempotent (b : Boot) :
  connect_fault (server b)
    (environ_get_or (boot_environ b) "RETHINKDB_HOSTNAME" "127.0.0.1")
    (environ_get_or (boot_environ b) "RETHINKDB_USER" "admin")
    (environ_get_or (boot_environ b) "RETHINKDB_PASSWORD" "") = None ->
  (forall t, query_fault b t = None) ->
  server (snd (_connect_rethinkdb_and_s3 (snd (_connect_rethinkdb_and_s3 b))))
  = server (snd (_connect_rethinkdb_and_s3 b)).
Proof.
  intros Hc Hq.
  destruct (after_creation_queries_schema (server b)) as (tables & Hd & Hu & Hi).
  assert (Hfix : after_creation_queries (after_creation_queries (server b))
                 = after_creation_queries (server b)).
  { unfold after_creation_queries at 1.
    rewrite db_create_present by (rewrite Hd; eauto).
    rewrite (table_create_present "uploads" {| db := "magiccap" |} _ tables Hd Hu).
    now rewrite (table_create_present "installs" {| db := "magiccap" |} _ tables Hd Hi). }
  rewrite (startup_connected b Hc).
  set (b1 := snd (create_s3_client (after_schema_steps b))).
  destruct (create_s3_client_server (after_schema_steps b)) as (Hs1 & He1 & Hq1).
  fold b1 in Hs1, He1, Hq1.
  destruct (after_schema_steps_fields b) as (He & _ & Hqf & _).
  assert (Hsrv1 : server b1 = after_creation_queries (server b))
    by (rewrite Hs1; now apply after_schema_steps_answered).
  assert (Hc1 : connect_fault (server b1)
                  (environ_get_or (boot_environ b1) "RETHINKDB_HOSTNAME" "127.0.0.1")
                  (environ_get_or (boot_environ b1) "RETHINKDB_USER" "admin")
                  (environ_get_or (boot_environ b1) "RETHINKDB_PASSWORD" "") = None).
  { rewrite Hsrv1, He1, He, after_creation_queries_connect. exact Hc. }
  assert (Hq1' : forall t, query_fault b1 t = None).
  { intros t. rewrite Hq1, Hqf. apply Hq. }
  rewrite (startup_connected b1 Hc1).
  destruct (create_s3_client_server (after_schema_steps b1)) as (-> & _ & _).
  rewrite (after_schema_steps_answered b1 Hq1'), Hsrv1. exact Hfix.
Qed.

(** ** The arguments of the S3 client *)

Lemma set_if_exists_lookup (env kwargs : gmap string string) (k as_ j : string) :
  set_if_exists env k as_ kwargs !! j
  = if decide (as_ = j) then
      match env !! k with Some v => Some v | None => kwargs !! j end
    else kwargs !! j.
Proof.
  unfold set_if_exists, dict_getitem.
  destruct (env !! k) as [v|]; [|now destruct (decide (as_ = j))].
  rewrite lookup_insert. now destruct (decide (as_ = j)).
Qed.

(** X23: the S3 client is created with one keyword argument for each of the
    four settings that the environment has, under the argument's own name
    and with the value as it is; a setting that is not in the environment
    is not passed at all, and nothing else is ever passed. *)
Theorem s3_kwargs_from_environment (env : gmap string string) :
  s3_kwargs env !! "endpoint_url" = env !! "AWS_ENDPOINT"
  /\ s3_kwargs env !! "aws_secret_access_key" = env !! "AWS_SECRET_ACCESS_KEY"
  /\ s3_kwargs env !! "aws_access_key_id" = env !! "AWS_ACCESS_KEY_ID"
  /\ s3_kwargs env !! "region_name" = env !! "AWS_REGION"
  /\ forall j,
       j <> "endpoint_url" -> j <> "aws_secret_access_key" ->
       j <> "aws_access_key_id" -> j <> "region_name" ->
       s3_kwargs env !! j = None.
Proof.
  unfold s3_kwargs.
  repeat split; intros; rewrite !set_if_exists_lookup;
    repeat match goal with
    | |- context [decide (?a = ?b)] => destruct (decide (a = b)); try congruence
    end;
    try (destruct (env !! _); reflexivity); try apply lookup_empty.
Qed.

End Properties.

(** * The handlers at work *)

Example upload_photo :
  fst (upload (Example.request "Bearer abc123" [Example.photo "photo.PNG"])
         Example.world)
  = Returned (url_response "adgjmpsv.png").
Proof. vm_compute. reflexivity. Qed.

Example retrieve_missing :
  fst (image_view "adgjmpsv.png" Example.world)
  = Returned (response_text "Not found." 404).
Proof. vm_compute. reflexivity. Qed.

Lemma auth_failure_400_witness :
  upload (Example.request "Bearer nobody" [Example.photo "photo.PNG"]) Example.world
  = (Returned (HTTPResponse (JsonBody [("error", "Invalid installation ID.")]) 400
                 "application/json"), Example.world)
  /\ forall k', auth_message k' = auth_message UnknownInstallation
                -> k' = UnknownInstallation.
Proof.
  apply (auth_failure_400 (py_lower := ascii_StrLower)
           (Example.request "Bearer nobody" [Example.photo "photo.PNG"])
           Example.world UnknownInstallation).
  exists "Bearer nobody", "Bearer", "nobody".
  repeat split; reflexivity.
Defined.

Lemma image_view_not_found_witness :
  image_view "neverput.png" Example.world
  = (Returned (HTTPResponse (TextBody "Not found.") 404 "text/plain; charset=utf-8"),
     Example.world).
Proof.
  apply (image_view_not_found "neverput.png" "magiccap" Example.world
           Example.world (ClientError "NoSuchKey")); reflexivity.
Defined.

(** C1, as the specification states it, fails: a backend error that is
    not a not-found error (here: access denied) is answered with the very
    404 response of a missing key, and nothing is raised. *)
Lemma client_error_is_answered_404 :
  get_object "magiccap" "adgjmpsv.png" Example.world_denied
  = (Raised (ClientError "AccessDenied"), Example.world_denied)
  /\ is_no_such_key (ClientError "AccessDenied") = false
  /\ image_view "adgjmpsv.png" Example.world_denied
     = (Returned (response_text "Not found." 404), Example.world_denied)
  /\ image_view "adgjmpsv.png" Example.world_denied
     <> (Raised (ClientError "AccessDenied"), Example.world_denied).
Proof.
  assert (H : image_view "adgjmpsv.png" Example.world_denied
              = (Returned (response_text "Not found." 404), Example.world_denied))
    by reflexivity.
  repeat split; try reflexivity.
  rewrite H. discriminate.
Qed.

Lemma image_view_backend_error_witness :
  image_view "adgjmpsv.png" Example.world_unreachable
  = (Raised (BotoCoreError "EndpointConnectionError"), Example.world_unreachable).
Proof.
  apply (image_view_backend_error "adgjmpsv.png" "magiccap"
           Example.world_unreachable Example.world_unreachable
           (BotoCoreError "EndpointConnectionError")); reflexivity.
Defined.

Lemma stream_forwards_chunks_in_order_witness :
  let self :=
    {| s3_response :=
         {| ContentType := "image/png";
            Body := {| chunks := [([Byte.x01; Byte.x02], false); ([], true);
                                  ([Byte.x03], false)];
                       stream_error := None |} |} |} in
  SanicS3Stream_call self [[Byte.x00]]
  = (Returned tt, [[Byte.x00]; [Byte.x01; Byte.x02]; []; [Byte.x03]])
  /\ concat (snd (SanicS3Stream_call self [[Byte.x00]]))
     = [Byte.x00] ++ [Byte.x01; Byte.x02; Byte.x03].
Proof.
  intros self.
  apply (stream_forwards_chunks_in_order self [[Byte.x00]]). reflexivity.
Defined.

Lemma upload_empty_data_raises_witness :
  upload (Example.request "Bearer abc123" []) Example.world
  = (Raised IndexError, Example.world)
  /\ fst (upload (Example.request "Bearer abc123" []) Example.world)
     <> Returned (error_response "No data found.").
Proof.
  apply (upload_empty_data_raises (py_lower := ascii_StrLower) (Example.request "Bearer abc123" []) Example.world).
  - exists "Bearer abc123", "Bearer", "abc123", Example.installation.
    repeat split; reflexivity.
  - reflexivity.
Defined.

(** C3, as the specification states it, fails: a header whose two tokens
    are separated by two spaces has exactly two whitespace-separated
    tokens, and a registered credential, yet it is refused as malformed. *)
Lemma two_spaces_are_refused :
  whitespace_tokens "Bearer  abc123" = ["Bearer"; "abc123"]
  /\ upload (Example.request "Bearer  abc123" [Example.photo "photo.PNG"])
       Example.world
     = (Returned malformed_response, Example.world).
Proof. split; reflexivity. Qed.

Example tab_is_refused :
  whitespace_tokens (String "a" (String "009" "b")) = ["a"; "b"]
  /\ upload (Example.request (String "a" (String "009" "b"))
               [Example.photo "photo.PNG"]) Example.world
     = (Returned malformed_response, Example.world).
Proof. split; reflexivity. Qed.

Lemma header_shape_single_space_witness :
  (occurrences " " "Bearer abc123" = 1 <->
   fst (upload (Example.request "Bearer abc123" [Example.photo "photo.PNG"])
          Example.world) <> Returned malformed_response)
  /\ (occurrences " " "Bearer abc123" <> 1 ->
      upload (Example.request "Bearer abc123" [Example.photo "photo.PNG"])
        Example.world
      = (Returned malformed_response, Example.world)).
Proof.
  apply (header_shape_single_space (py_lower := ascii_StrLower)
           (Example.request "Bearer abc123" [Example.photo "photo.PNG"])
           Example.world "Bearer abc123").
  reflexivity.
Defined.

Lemma upload_writes_one_or_none_witness :
  objects_written Example.world
    (store_object
       {| obj_bucket := "magiccap"; obj_key := "adgjmpsv.png";
          obj_body := [Byte.x89; Byte.x50; Byte.x4e];
          obj_content_type := "image/png" |}
       (advance_rng 8 Example.world)) 1
  /\ (upload_failure
        (Example.request "Bearer abc123" [Example.photo "photo.PNG"]) Example.world ->
      exists msg,
        Returned (url_response "adgjmpsv.png") = Returned (error_response msg)
        /\ objects_written Example.world
             (store_object
                {| obj_bucket := "magiccap"; obj_key := "adgjmpsv.png";
                   obj_body := [Byte.x89; Byte.x50; Byte.x4e];
                   obj_content_type := "image/png" |}
                (advance_rng 8 Example.world)) 0).
Proof.
  apply (upload_writes_one_or_none (py_lower := ascii_StrLower)
           (Example.request "Bearer abc123" [Example.photo "photo.PNG"])
           Example.world _ (Returned (url_response "adgjmpsv.png"))).
  reflexivity.
Defined.

Lemma upload_key_shape_witness :
  exists file_ rest prefix e o,
    files (Example.request "Bearer abc123" [Example.photo "photo.PNG"]) !! "data"
    = Some (file_ :: rest)
    /\ String.length prefix = 8
    /\ all_lowercase_letters prefix = true
    /\ pop (split "." (name file_)) = Returned e
    /\ (forall pre suf,
          name file_ = pre +:+ "." +:+ suf -> occurrences "." suf = 0 -> e = suf)
    /\ url_response "adgjmpsv.png" = url_response (prefix +:+ "." +:+ lower e)
    /\ objects (client
                  (store_object
                     {| obj_bucket := "magiccap"; obj_key := "adgjmpsv.png";
                        obj_body := [Byte.x89; Byte.x50; Byte.x4e];
                        obj_content_type := "image/png" |}
                     (advance_rng 8 Example.world)))
       = o :: objects (client Example.world)
    /\ obj_key o = prefix +:+ "." +:+ lower e.
Proof.
  apply (upload_key_shape (py_lower := ascii_StrLower)
           (Example.request "Bearer abc123" [Example.photo "photo.PNG"])
           Example.world _ (url_response "adgjmpsv.png")); reflexivity.
Defined.

(** C2, as the specification states it, fails: for the name "photo", which
    has no ".", the extension is not empty but the whole name, and the key
    is not the eight-letter prefix alone. *)
Lemma no_dot_name_is_the_extension :
  occurrences "." "photo" = 0
  /\ file_ext "photo" = Returned "photo"
  /\ fst (upload (Example.request "Bearer abc123" [Example.photo "photo"])
            Example.world)
     = Returned (url_response "adgjmpsv.photo")
  /\ ~ (exists prefix,
          String.length prefix = 8
          /\ fst (upload (Example.request "Bearer abc123" [Example.photo "photo"])
                    Example.world)
             = Returned (url_response prefix)).
Proof.
  assert (H : fst (upload (Example.request "Bearer abc123" [Example.photo "photo"])
                     Example.world)
              = Returned (url_response "adgjmpsv.photo"))
    by (vm_compute; reflexivity).
  repeat split; try reflexivity; try exact H.
  intros (prefix & Hlen & Hp). rewrite H in Hp.
  assert (Hu : url_response "adgjmpsv.photo" = url_response prefix) by congruence.
  apply url_response_inj in Hu. subst prefix.
  discriminate Hlen.
Qed.

Lemma upload_no_dot_name_witness :
  file_ext "photo" = Returned "photo"
  /\ exists prefix,
       random_filename Example.world = (Returned prefix, advance_rng 8 Example.world)
       /\ String.length prefix = 8
       /\ all_lowercase_letters prefix = true
       /\ fst (upload (Example.request "Bearer abc123" [Example.photo "photo"])
                 Example.world)
          = Returned (url_response (prefix +:+ "." +:+ "photo")).
Proof.
  apply (upload_no_dot_name (py_lower := ascii_StrLower)
           (Example.request "Bearer abc123" [Example.photo "photo"])
           Example.world (Example.photo "photo") [] "magiccap").
  - exists "Bearer abc123", "Bearer", "abc123", Example.installation.
    repeat split; reflexivity.
  - reflexivity.
  - reflexivity.
  - reflexivity.
  - intros key. reflexivity.
Defined.



Lemma upload_succeeds_witness :
  upload (Example.request "Bearer abc123" [Example.photo "archive.tar.GZ"])
    Example.world
  = (Returned (url_response "adgjmpsv.gz"),
     store_object
       {| obj_bucket := "magiccap"; obj_key := "adgjmpsv.gz";
          obj_body := [Byte.x89; Byte.x50; Byte.x4e];
          obj_content_type := "image/png" |}
       (advance_rng 8 Example.world)).
Proof.
  apply (upload_succeeds (py_lower := ascii_StrLower)
           (Example.request "Bearer abc123" [Example.photo "archive.tar.GZ"])
           Example.world (Example.photo "archive.tar.GZ") [] "magiccap" "gz").
  - exists "Bearer abc123", "Bearer", "abc123", Example.installation.
    repeat split; reflexivity.
  - reflexivity.
  - reflexivity.
  - reflexivity.
  - reflexivity.
Defined.

Lemma upload_registry_error_witness :
  upload (Example.request "Bearer abc123" [Example.photo "photo.PNG"])
    (Example.world_registry_down)
  = (Raised (ReqlDriverError "Connection is closed."), Example.world_registry_down).
Proof.
  apply (upload_registry_error (py_lower := ascii_StrLower)
           (Example.request "Bearer abc123" [Example.photo "photo.PNG"])
           Example.world_registry_down "Bearer abc123" "Bearer" "abc123");
    reflexivity.
Defined.

Lemma upload_missing_bucket_witness :
  upload (Example.request "Bearer abc123" [Example.photo "photo.PNG"])
    Example.world_no_bucket
  = (Raised (KeyError "AWS_BUCKET"), advance_rng 8 Example.world_no_bucket)
  /\ objects (client (snd (upload (Example.request "Bearer abc123"
                                     [Example.photo "photo.PNG"])
                             Example.world_no_bucket)))
     = objects (client Example.world_no_bucket).
Proof.
  apply (upload_missing_bucket (py_lower := ascii_StrLower)
           (Example.request "Bearer abc123" [Example.photo "photo.PNG"])
           Example.world_no_bucket (Example.photo "photo.PNG") []).
  - exists "Bearer abc123", "Bearer", "abc123", Example.installation.
    repeat split; reflexivity.
  - reflexivity.
  - reflexivity.
Defined.

Lemma upload_put_error_witness :
  upload (Example.request "Bearer abc123" [Example.photo "photo.PNG"])
    Example.world_read_only
  = (Raised (ClientError "AccessDenied"), advance_rng 8 Example.world_read_only)
  /\ objects (client (snd (upload (Example.request "Bearer abc123"
                                     [Example.photo "photo.PNG"])
                             Example.world_read_only)))
     = objects (client Example.world_read_only).
Proof.
  apply (upload_put_error (py_lower := ascii_StrLower)
           (Example.request "Bearer abc123" [Example.photo "photo.PNG"])
           Example.world_read_only (Example.photo "photo.PNG") [] "magiccap" "png").
  - exists "Bearer abc123", "Bearer", "abc123", Example.installation.
    repeat split; reflexivity.
  - reflexivity.
  - reflexivity.
  - reflexivity.
  - reflexivity.
Defined.

Lemma upload_depends_on_credential_and_first_part_witness :
  upload (Example.request "Bearer abc123" [Example.photo "photo.PNG"]) Example.world
  = upload {| headers := [("X-Trace", "1"); ("AUTHORIZATION", "Basic abc123")];
              files := {["data" := [Example.photo "photo.PNG"; Example.photo "b.gif"]]}
                       ∪ {["thumbnail" := [Example.photo "c.jpg"]]} |}
      Example.world.
Proof.
  apply (upload_depends_on_credential_and_first_part (py_lower := ascii_StrLower) _ _ Example.world
           "Bearer abc123" "Basic abc123" "Bearer" "Basic" "abc123");
    reflexivity.
Defined.

Lemma image_view_serves_latest_witness :
  match List.find (same_object "magiccap" "adgjmpsv.png")
          (objects (client Example.world_two_versions)) with
  | Some o =>
      exists fn,
        image_view "adgjmpsv.png" Example.world_two_versions
        = (Returned (StreamingHTTPResponse fn 200 (obj_content_type o)),
           Example.world_two_versions)
        /\ stream_to_client fn = Returned (obj_body o)
        /\ obj_key o = "adgjmpsv.png"
  | None =>
      image_view "adgjmpsv.png" Example.world_two_versions
      = (Returned (HTTPResponse (TextBody "Not found.") 404
                     "text/plain; charset=utf-8"), Example.world_two_versions)
  end.
Proof.
  apply (image_view_serves_latest "adgjmpsv.png" "magiccap"
           Example.world_two_versions);
    [reflexivity | reflexivity | repeat constructor; discriminate].
Defined.

Lemma image_view_missing_bucket_witness :
  image_view "adgjmpsv.png" Example.world_no_bucket
  = (Raised (KeyError "AWS_BUCKET"), Example.world_no_bucket).
Proof.
  apply (image_view_missing_bucket "adgjmpsv.png" Example.world_no_bucket).
  reflexivity.
Defined.

Lemma upload_leaves_other_keys_witness :
  fst (image_view "zzzzzzzz.png"
         (snd (upload (Example.request "Bearer abc123" [Example.photo "photo.PNG"])
                 Example.world_two_versions)))
  = fst (image_view "zzzzzzzz.png" Example.world_two_versions).
Proof.
  apply (upload_leaves_other_keys (py_lower := ascii_StrLower)
           (Example.request "Bearer abc123" [Example.photo "photo.PNG"])
           Example.world_two_versions _ "adgjmpsv.png" "zzzzzzzz.png").
  - reflexivity.
  - discriminate.
Defined.


Lemma upload_key_keeps_extension_witness :
  exists key filename ext,
    url_response "adgjmpsv.gz" = url_response key
    /\ file_ext (name (Example.photo "archive.tar.GZ")) = Returned ext
    /\ split "." key = [filename; ext]
    /\ String.length filename = 8
    /\ file_ext key = Returned ext.
Proof.
  apply (upload_key_keeps_extension (py_lower := ascii_StrLower)
           (Example.request "Bearer abc123" [Example.photo "archive.tar.GZ"])
           Example.world
           (snd (upload (Example.request "Bearer abc123"
                           [Example.photo "archive.tar.GZ"]) Example.world))
           (url_response "adgjmpsv.gz") (Example.photo "archive.tar.GZ") []);
    reflexivity.
Defined.

Lemma every_filename_can_be_drawn_witness :
  fst (random_filename
         (with_rng {| draws := draws_for "magiccap"; cursor := 0 |} Example.world))
  = Returned "magiccap".
Proof.
  apply (every_filename_can_be_drawn "magiccap" Example.world); reflexivity.
Defined.

Lemma stream_error_after_chunks_witness :
  let self :=
    {| s3_response :=
         {| ContentType := "image/png";
            Body := {| chunks := [([Byte.x01; Byte.x02], true)];
                       stream_error := Some (BotoCoreError "ReadTimeoutError") |} |} |} in
  SanicS3Stream_call self [] = (Raised (BotoCoreError "ReadTimeoutError"),
                                [[Byte.x01; Byte.x02]])
  /\ stream_to_client self = Raised (BotoCoreError "ReadTimeoutError").
Proof.
  intros self.
  apply (stream_error_after_chunks self [] (BotoCoreError "ReadTimeoutError")).
  reflexivity.
Defined.

Lemma stream_independent_of_chunking_witness :
  stream_to_client
    {| s3_response :=
         {| ContentType := "image/png";
            Body := {| chunks := [([Byte.x01], false); ([Byte.x02; Byte.x03], true)];
                       stream_error := None |} |} |}
  = stream_to_client
      {| s3_response :=
           {| ContentType := "image/png";
              Body := {| chunks := [([Byte.x01; Byte.x02; Byte.x03], false)];
                         stream_error := None |} |} |}.
Proof.
  apply stream_independent_of_chunking;
    try reflexivity; repeat constructor; discriminate.
Defined.

Lemma startup_connect_failure_witness :
  _connect_rethinkdb_and_s3 (boot_example {["RETHINKDB_USER" := "magiccap"]} ∅)
  = (Raised (ReqlDriverError "Unknown user"),
     boot_example {["RETHINKDB_USER" := "magiccap"]} ∅).
Proof.
  apply (startup_connect_failure
           (boot_example {["RETHINKDB_USER" := "magiccap"]} ∅)
           (ReqlDriverError "Unknown user")).
  reflexivity.
Defined.

Lemma startup_survives_schema_errors_witness :
  fst (_connect_rethinkdb_and_s3 boot_refused)
  = match client_fault boot_refused (s3_kwargs (boot_environ boot_refused)) with
    | Some e => Raised e
    | None => Returned tt
    end
  /\ instance (snd (_connect_rethinkdb_and_s3 boot_refused))
     = {| app_conn := Some {| db := "magiccap" |};
          app_client :=
            match client_fault boot_refused (s3_kwargs (boot_environ boot_refused)) with
            | Some _ => app_client (instance boot_refused)
            | None => Some (s3_kwargs (boot_environ boot_refused))
            end |}
  /\ keeps_schema (server boot_refused)
       (server (snd (_connect_rethinkdb_and_s3 boot_refused))).
Proof.
  apply (startup_survives_schema_errors boot_refused). reflexivity.
Defined.

Lemma create_if_not_exists_idempotent_witness :
  server (snd (create_db_if_not_exists "magiccap"
                 (snd (create_db_if_not_exists "magiccap" boot_connected))))
  = server (snd (create_db_if_not_exists "magiccap" boot_connected))
  /\ server (snd (create_table_if_not_exists "installs"
                    (snd (create_table_if_not_exists "installs" boot_connected))))
     = server (snd (create_table_if_not_exists "installs" boot_connected))
  /\ server (snd (create_index_if_not_exists "installs" "by_ip"
                    (snd (create_index_if_not_exists "installs" "by_ip" boot_connected))))
     = server (snd (create_index_if_not_exists "installs" "by_ip" boot_connected)).
Proof.
  apply (create_if_not_exists_idempotent boot_connected "magiccap" "installs" "by_ip").
  reflexivity.
Defined.

Lemma startup_establishes_schema_witness :
  exists tables,
    databases (server (snd (_connect_rethinkdb_and_s3
                              (boot_example ∅ {["magiccap" := {["installs" := {["by_ip"]}]}]}))))
    !! "magiccap" = Some tables
    /\ is_Some (tables !! "uploads")
    /\ is_Some (tables !! "installs").
Proof.
  apply (startup_establishes_schema
           (boot_example ∅ {["magiccap" := {["installs" := {["by_ip"]}]}]})).
  - reflexivity.
  - intros n. reflexivity.
Defined.

Lemma startup_idempotent_witness :
  server (snd (_connect_rethinkdb_and_s3
                 (snd (_connect_rethinkdb_and_s3 (boot_example ∅ ∅)))))
  = server (snd (_connect_rethinkdb_and_s3 (boot_example ∅ ∅))).
Proof.
  apply (startup_idempotent (boot_example ∅ ∅)).
  - reflexivity.
  - intros n. reflexivity.
Defined.

(** When the first call's query is lost, the helper is not idempotent: the
    first call leaves the server without the database, the second one
    creates it. *)
Example lost_query_is_retried :
  databases (server (snd (create_db_if_not_exists "magiccap" boot_first_lost))) = ∅
  /\ databases (server (snd (create_db_if_not_exists "magiccap"
                               (snd (create_db_if_not_exists "magiccap"
                                       boot_first_lost)))))
     = {["magiccap" := ∅]}.
Proof. split; reflexivity. Qed.
